(** * Feedback Pulse: the feedback / digest worker of [src/index.ts]

    A shallow embedding of the request handlers of the worker
    ([analyseFeedback], [handleAddFeedback], [handleGenerateDigest],
    [handleGetDigest]) together with the pieces of the platform they lean
    on: JavaScript values and truthiness, [JSON.stringify] / [JSON.parse],
    [String.prototype.match] for the one regular expression the worker uses,
    and the two tables created by [handleInitDb].

    - A handler is a function from the world (database, log of model calls,
      console) to a result and a new world; a result is a value or a raised
      error, which the router of [fetch] would turn into a 500 response.
    - The model behind [env.AI] is a parameter: for a prompt and an output
      budget it raises or returns a reply.
    - The database follows the two [CREATE TABLE] statements: ids count up,
      [created_at] defaults to the clock, a [NOT NULL] column refuses [NULL],
      and a statement refuses an [undefined] parameter.  Other values are
      stored as they were bound.
    - JSON numbers are integers, taken exactly. *)

From Stdlib Require Import Bool Arith ZArith List Lia Ascii String.
From Stdlib Require Import DecimalString DecimalPos DecimalZ DecimalFacts.
From Stdlib Require Import Sorting.Permutation.
Import ListNotations.

Local Open Scope string_scope.
Local Open Scope list_scope.

(** ** Characters and strings *)

Module Chars.

Definition dquote : ascii := "034"%char.
Definition backslash : ascii := "092"%char.
Definition slash : ascii := "047"%char.
Definition lbrace : ascii := "123"%char.
Definition rbrace : ascii := "125"%char.
Definition lbracket : ascii := "091"%char.
Definition rbracket : ascii := "093"%char.
Definition comma : ascii := "044"%char.
Definition colon : ascii := "058"%char.
Definition minus : ascii := "045"%char.
Definition newline : ascii := "010"%char.

End Chars.
Import Chars.

(** String literals of the source that contain double quotes are written
    here with backquotes, which [bq] turns into double quotes. *)
Fixpoint bq (s : string) : string :=
  match s with
  | EmptyString => EmptyString
  | String c r => String (if Ascii.eqb c "096" then dquote else c) (bq r)
  end.

(** ** JavaScript values that come out of [JSON.parse]

    Numbers are the integer literals; the fractional and exponent forms of
    a JSON number need floating point and are not represented.  An object
    keeps its properties in insertion order, each key once. *)

#[local] Unset Elimination Schemes.
Inductive json : Type :=
| JNull
| JBool (b : bool)
| JNum (n : Z)
| JStr (s : string)
| JArr (xs : list json)
| JObj (ms : list (string * json)).
#[local] Set Elimination Schemes.

(** Induction over a value, its array elements and its property values. *)
Fixpoint json_ind (P : json -> Prop)
    (Hnull : P JNull)
    (Hbool : forall b, P (JBool b))
    (Hnum : forall n, P (JNum n))
    (Hstr : forall s, P (JStr s))
    (Harr : forall xs, Forall P xs -> P (JArr xs))
    (Hobj : forall ms, Forall (fun m => P (snd m)) ms -> P (JObj ms))
    (v : json) {struct v} : P v :=
  match v with
  | JNull => Hnull
  | JBool b => Hbool b
  | JNum n => Hnum n
  | JStr s => Hstr s
  | JArr xs =>
      Harr xs
        ((fix go (l : list json) : Forall P l :=
            match l with
            | [] => Forall_nil P
            | x :: r =>
                Forall_cons x (json_ind P Hnull Hbool Hnum Hstr Harr Hobj x)
                  (go r)
            end) xs)
  | JObj ms =>
      Hobj ms
        ((fix go (l : list (string * json))
            : Forall (fun m => P (snd m)) l :=
            match l with
            | [] => Forall_nil _
            | m :: r =>
                Forall_cons m
                  (json_ind P Hnull Hbool Hnum Hstr Harr Hobj (snd m)) (go r)
            end) ms)
  end.

(** A JavaScript value as an expression yields it: a JSON value or
    [undefined] (the result of reading a property that is not there). *)
Definition jsval := option json.

(** [ToBoolean]: [null], [false], [0], the empty string and [undefined] are
    falsy, everything else (arrays and objects included) is truthy. *)
Definition truthy (v : json) : bool :=
  match v with
  | JNull => false
  | JBool b => b
  | JNum n => negb (Z.eqb n 0)
  | JStr s => negb (String.eqb s "")
  | JArr _ | JObj _ => true
  end.

Definition truthy_val (v : jsval) : bool :=
  match v with
  | None => false
  | Some j => truthy j
  end.

(** [a || b] on values. *)
Definition js_or (a : jsval) (b : json) : json :=
  match a with
  | Some j => if truthy j then j else b
  | None => b
  end.

(** Property lookup in a property list. *)
Fixpoint assoc (k : string) (ms : list (string * json)) : jsval :=
  match ms with
  | [] => None
  | (k', v) :: r => if String.eqb k k' then Some v else assoc k r
  end.

(** Property assignment: an existing key keeps its place and takes the new
    value, a new key goes to the end. *)
Fixpoint obj_set (k : string) (v : json) (ms : list (string * json))
  : list (string * json) :=
  match ms with
  | [] => [(k, v)]
  | (k', v') :: r =>
      if String.eqb k k' then (k', v) :: r else (k', v') :: obj_set k v r
  end.

(** [o.k] for an object [o] that came out of [JSON.parse]. *)
Definition get (k : string) (o : json) : jsval :=
  match o with
  | JObj ms => assoc k ms
  | _ => None
  end.

(** ** [JSON.stringify] *)

Module Stringify.

Definition hex_digit (n : nat) : ascii :=
  if (n <? 10)%nat then ascii_of_nat (48 + n) else ascii_of_nat (87 + n).

(** One character of a string literal as [JSON.stringify] writes it: the
    quote and the backslash escaped, the control characters by their short
    escape or as [\u00XX], everything else as it is. *)
Definition escape_char (c : ascii) : string :=
  let n := nat_of_ascii c in
  if Ascii.eqb c dquote then String backslash (String dquote "")
  else if Ascii.eqb c backslash then String backslash (String backslash "")
  else if (n =? 8)%nat then String backslash "b"
  else if (n =? 12)%nat then String backslash "f"
  else if (n =? 10)%nat then String backslash "n"
  else if (n =? 13)%nat then String backslash "r"
  else if (n =? 9)%nat then String backslash "t"
  else if (n <? 32)%nat then
    String backslash
      (String "u" (String "0" (String "0"
         (String (hex_digit (n / 16)) (String (hex_digit (n mod 16)) "")))))
  else String c "".

Fixpoint escape (s : string) : string :=
  match s with
  | EmptyString => ""
  | String c r => escape_char c ++ escape r
  end.

Definition quote (s : string) : string :=
  String dquote (escape s ++ String dquote "").

Definition string_of_Z (n : Z) : string :=
  NilZero.string_of_int (Z.to_int n).

Fixpoint stringify (v : json) : string :=
  match v with
  | JNull => "null"
  | JBool true => "true"
  | JBool false => "false"
  | JNum n => string_of_Z n
  | JStr s => quote s
  | JArr xs =>
      String lbracket
        (match xs with
         | [] => ""
         | x :: r =>
             stringify x ++
             (fix more (l : list json) : string :=
                match l with
                | [] => ""
                | y :: l' => String comma (stringify y ++ more l')
                end) r
         end ++ String rbracket "")
  | JObj ms =>
      String lbrace
        (match ms with
         | [] => ""
         | (k, x) :: r =>
             quote k ++ String colon (stringify x) ++
             (fix more (l : list (string * json)) : string :=
                match l with
                | [] => ""
                | (k', y) :: l' =>
                    String comma
                      (quote k' ++ String colon (stringify y) ++ more l')
                end) r
         end ++ String rbrace "")
  end.

End Stringify.

(** [JSON.stringify(v)]: the text of a value, [undefined] for [undefined]. *)
Definition JSON_stringify (v : jsval) : option string :=
  option_map Stringify.stringify v.

(** ** [JSON.parse] *)

Module Parse.

Definition is_ws (c : ascii) : bool :=
  let n := N_of_ascii c in
  (n =? 32)%N || (n =? 9)%N || (n =? 10)%N || (n =? 13)%N.

Fixpoint skip_ws (s : string) : string :=
  match s with
  | EmptyString => s
  | String c r => if is_ws c then skip_ws r else s
  end.

Definition is_digit (c : ascii) : bool :=
  let n := N_of_ascii c in (48 <=? n)%N && (n <=? 57)%N.

Definition hex_val (c : ascii) : option N :=
  let n := N_of_ascii c in
  if (48 <=? n)%N && (n <=? 57)%N then Some (n - 48)%N
  else if (97 <=? n)%N && (n <=? 102)%N then Some (n - 87)%N
  else if (65 <=? n)%N && (n <=? 70)%N then Some (n - 55)%N
  else None.

Definition hex4 (a b c d : ascii) : option N :=
  match hex_val a, hex_val b, hex_val c, hex_val d with
  | Some x, Some y, Some z, Some w =>
      Some (4096 * x + 256 * y + 16 * z + w)%N
  | _, _, _, _ => None
  end.

(** The bytes of one code unit given by a [\uXXXX] escape. *)
Definition utf8 (cp : N) : string :=
  if (cp <? 128)%N then String (ascii_of_N cp) ""
  else if (cp <? 2048)%N then
    String (ascii_of_N (192 + cp / 64))
      (String (ascii_of_N (128 + cp mod 64)) "")
  else
    String (ascii_of_N (224 + cp / 4096))
      (String (ascii_of_N (128 + (cp / 64) mod 64))
         (String (ascii_of_N (128 + cp mod 64)) "")).

(** The character a one-letter escape stands for. *)
Definition unescape (e : ascii) : option ascii :=
  if Ascii.eqb e dquote then Some dquote
  else if Ascii.eqb e backslash then Some backslash
  else if Ascii.eqb e slash then Some slash
  else if Ascii.eqb e "b" then Some "008"%char
  else if Ascii.eqb e "f" then Some "012"%char
  else if Ascii.eqb e "n" then Some "010"%char
  else if Ascii.eqb e "r" then Some "013"%char
  else if Ascii.eqb e "t" then Some "009"%char
  else None.

(** The characters of a string literal after its opening quote: the
    decoded string and the text after the closing quote. *)
Fixpoint parse_chars (s : string) : option (string * string) :=
  match s with
  | EmptyString => None
  | String c r =>
      if Ascii.eqb c dquote then Some ("", r)
      else if Ascii.eqb c backslash then
        match r with
        | EmptyString => None
        | String e r1 =>
            match unescape e with
            | Some c' =>
                match parse_chars r1 with
                | Some (x, t) => Some (String c' x, t)
                | None => None
                end
            | None =>
                if Ascii.eqb e "u" then
                  match r1 with
                  | String h1 (String h2 (String h3 (String h4 r2))) =>
                      match hex4 h1 h2 h3 h4 with
                      | Some cp =>
                          match parse_chars r2 with
                          | Some (x, t) => Some ((utf8 cp ++ x)%string, t)
                          | None => None
                          end
                      | None => None
                      end
                  | _ => None
                  end
                else None
            end
        end
      else if (N_of_ascii c <? 32)%N then None
      else
        match parse_chars r with
        | Some (x, t) => Some (String c x, t)
        | None => None
        end
  end.

Definition push_digit (c : ascii) (d : Decimal.uint) : Decimal.uint :=
  match uint_of_char c (Some d) with
  | Some d' => d'
  | None => d
  end.

(** The longest run of digits at the head of the text. *)
Fixpoint scan_digits (s : string) : Decimal.uint * string :=
  match s with
  | EmptyString => (Decimal.Nil, s)
  | String c r =>
      if is_digit c then
        let (d, t) := scan_digits r in (push_digit c d, t)
      else (Decimal.Nil, s)
  end.

(** An integer literal: an optional minus sign, then [0] alone or a run
    of digits that does not start with [0].  A fraction or an exponent
    after it is left in the text, so a literal that has one is not read. *)
Definition parse_number (s : string) : option (json * string) :=
  let (neg, s1) :=
    match s with
    | String c r => if Ascii.eqb c minus then (true, r) else (false, s)
    | EmptyString => (false, s)
    end in
  match s1 with
  | EmptyString => None
  | String c r =>
      if Ascii.eqb c "0" then Some (JNum 0, r)
      else if is_digit c then
        let (d, t) := scan_digits s1 in
        Some (JNum (if neg then - Z.of_uint d else Z.of_uint d)%Z, t)
      else None
  end.

Fixpoint strip (p s : string) : option string :=
  match p with
  | EmptyString => Some s
  | String a p' =>
      match s with
      | EmptyString => None
      | String b s' => if Ascii.eqb a b then strip p' s' else None
      end
  end.

(** Properties in the order of the text; a repeated key keeps its first
    place and its last value. *)
Definition dedup (ms : list (string * json)) : list (string * json) :=
  fold_left (fun acc m => obj_set (fst m) (snd m) acc) ms [].

End Parse.

Module ParseValue.
Import Parse.

(** A value, the elements of an array after its opening bracket, and the
    properties of an object after its opening brace.  [fuel] bounds the
    depth of the calls; [JSON_parse] gives enough for any text. *)
Fixpoint parse_value (fuel : nat) (s : string) {struct fuel}
  : option (json * string) :=
  match fuel with
  | O => None
  | S f =>
      match skip_ws s with
      | EmptyString => None
      | String c r =>
          if Ascii.eqb c lbrace then
            match skip_ws r with
            | EmptyString => None
            | String c' r' =>
                if Ascii.eqb c' rbrace then Some (JObj [], r')
                else
                  match parse_members f r with
                  | Some (ms, t) => Some (JObj (dedup ms), t)
                  | None => None
                  end
            end
          else if Ascii.eqb c lbracket then
            match skip_ws r with
            | EmptyString => None
            | String c' r' =>
                if Ascii.eqb c' rbracket then Some (JArr [], r')
                else
                  match parse_elements f r with
                  | Some (vs, t) => Some (JArr vs, t)
                  | None => None
                  end
            end
          else if Ascii.eqb c dquote then
            match parse_chars r with
            | Some (x, t) => Some (JStr x, t)
            | None => None
            end
          else if Ascii.eqb c "t" then
            match strip "rue" r with
            | Some t => Some (JBool true, t)
            | None => None
            end
          else if Ascii.eqb c "f" then
            match strip "alse" r with
            | Some t => Some (JBool false, t)
            | None => None
            end
          else if Ascii.eqb c "n" then
            match strip "ull" r with
            | Some t => Some (JNull, t)
            | None => None
            end
          else parse_number (String c r)
      end
  end

with parse_elements (fuel : nat) (s : string) {struct fuel}
  : option (list json * string) :=
  match fuel with
  | O => None
  | S f =>
      match parse_value f s with
      | None => None
      | Some (v, t) =>
          match skip_ws t with
          | EmptyString => None
          | String c r =>
              if Ascii.eqb c comma then
                match parse_elements f r with
                | Some (vs, u) => Some (v :: vs, u)
                | None => None
                end
              else if Ascii.eqb c rbracket then Some ([v], r)
              else None
          end
      end
  end

with parse_members (fuel : nat) (s : string) {struct fuel}
  : option (list (string * json) * string) :=
  match fuel with
  | O => None
  | S f =>
      match skip_ws s with
      | EmptyString => None
      | String c r =>
          if Ascii.eqb c dquote then
            match parse_chars r with
            | None => None
            | Some (k, t) =>
                match skip_ws t with
                | EmptyString => None
                | String c1 r1 =>
                    if Ascii.eqb c1 colon then
                      match parse_value f r1 with
                      | None => None
                      | Some (v, u) =>
                          match skip_ws u with
                          | EmptyString => None
                          | String c2 r2 =>
                              if Ascii.eqb c2 comma then
                                match parse_members f r2 with
                                | Some (ms, w) => Some ((k, v) :: ms, w)
                                | None => None
                                end
                              else if Ascii.eqb c2 rbrace
                              then Some ([(k, v)], r2)
                              else None
                          end
                      end
                    else None
                end
            end
          else None
      end
  end.

End ParseValue.

(** [JSON.parse(text)]: the value the whole text denotes, [None] where
    JavaScript raises a [SyntaxError]. *)
Definition JSON_parse (text : string) : option json :=
  match ParseValue.parse_value (2 * String.length text + 2) text with
  | Some (v, rest) =>
      match Parse.skip_ws rest with
      | EmptyString => Some v
      | String _ _ => None
      end
  | None => None
  end.

(** ** The rest of the JavaScript the worker uses *)

(** [ToString], as a template literal applies it to an interpolated value. *)
Fixpoint to_string (v : json) : string :=
  match v with
  | JNull => "null"
  | JBool true => "true"
  | JBool false => "false"
  | JNum n => Stringify.string_of_Z n
  | JStr s => s
  | JArr xs =>
      let item (x : json) : string :=
        match x with
        | JNull => ""
        | _ => to_string x
        end in
      match xs with
      | [] => ""
      | x :: r =>
          item x ++
          (fix more (l : list json) : string :=
             match l with
             | [] => ""
             | y :: l' => String comma (item y ++ more l')
             end) r
      end
  | JObj _ => "[object Object]"
  end.

Definition to_string_val (v : jsval) : string :=
  match v with
  | Some j => to_string j
  | None => "undefined"
  end.

(** The text from the head of [s] through its last closing brace. *)
Fixpoint upto_last_rbrace (s : string) : option string :=
  match s with
  | EmptyString => None
  | String c r =>
      match upto_last_rbrace r with
      | Some m => Some (String c m)
      | None => if Ascii.eqb c rbrace then Some (String c "") else None
      end
  end.

(** [text.match(/\{[\s\S]*\}/)]: the match, [jsonMatch[0]], or [None] for
    [null].  The pattern is tried from each position in turn; at an opening
    brace the starred class takes as much as it can, so the match runs to
    the last closing brace of the text. *)
Fixpoint match_json (text : string) : option string :=
  match text with
  | EmptyString => None
  | String c r =>
      if Ascii.eqb c lbrace then
        match upto_last_rbrace r with
        | Some m => Some (String c m)
        | None => match_json r
        end
      else match_json r
  end.

(** ** The two tables

    Columns as [handleInitDb] creates them.  A column keeps the value that
    was bound to it; [created_at] is text and is compared as text. *)

Module FeedbackItem.
Record t : Type := mk {
  id : nat;
  source : json;
  content : json;
  author : json;
  sentiment : json;
  urgency : json;
  themes : json;
  created_at : string;
  processed_at : json
}.
End FeedbackItem.

Module Digest.
Record t : Type := mk {
  id : nat;
  summary : json;
  top_themes : json;
  urgent_items : json;
  sentiment_breakdown : json;
  feedback_count : json;
  created_at : string
}.
End Digest.

(** The database: the rows of each table in the order of their ids, the
    counter behind each [AUTOINCREMENT] key, and the reading of
    [CURRENT_TIMESTAMP]. *)
Record D1Database : Type := {
  feedback : list FeedbackItem.t;
  digests : list Digest.t;
  feedback_seq : nat;
  digests_seq : nat;
  current_timestamp : string
}.

(** [ORDER BY created_at DESC].  Neither query names a second key: rows are
    visited in the order of their ids and rows equal in [created_at] keep
    that order. *)
Section OrderBy.
Context {A : Type} (key : A -> string).

Fixpoint insert_desc (x : A) (l : list A) : list A :=
  match l with
  | [] => [x]
  | y :: r =>
      if String.ltb (key x) (key y) then y :: insert_desc x r
      else x :: l
  end.

Definition order_by_desc (rows : list A) : list A :=
  fold_right insert_desc [] rows.

(** Every row of [l] is at least as new as every row after it. *)
Definition newest_first (l : list A) : Prop :=
  forall (l1 l2 : list A) (x y : A),
    l = l1 ++ x :: l2 -> In y l2 -> String.leb (key y) (key x) = true.
End OrderBy.

(** ** What a request can see and change *)

Inductive AiOutcome : Type :=
| AiThrows (e : string)
| AiReturns (response : option string).

(** [env.AI]: what [run] does for a prompt and an output budget. *)
Record Env : Type := {
  AI : string -> nat -> AiOutcome
}.

Record World : Type := {
  DB : D1Database;
  ai_calls : list (string * nat);
  console : list string
}.

Inductive Result (A : Type) : Type :=
| Ok (a : A)
| Throw (e : string).
Arguments Ok {A} a.
Arguments Throw {A} e.

Definition M (A : Type) : Type := World -> Result A * World.

Definition ret {A} (a : A) : M A := fun w => (Ok a, w).
Definition throw {A} (e : string) : M A := fun w => (Throw e, w).
Definition bind {A B} (m : M A) (k : A -> M B) : M B :=
  fun w =>
    match m w with
    | (Ok a, w') => k a w'
    | (Throw e, w') => (Throw e, w')
    end.
Definition try_catch {A} (m : M A) (h : string -> M A) : M A :=
  fun w =>
    match m w with
    | (Ok a, w') => (Ok a, w')
    | (Throw e, w') => h e w'
    end.

Notation "x <- m ;; k" := (bind m (fun x => k))
  (at level 61, m at next level, right associativity).
Notation "m ;;; k" := (bind m (fun _ => k))
  (at level 61, right associativity).

Definition console_error (msg : string) : M unit :=
  fun w =>
    (Ok tt, {| DB := DB w; ai_calls := ai_calls w;
               console := console w ++ [msg] |}).

(** [await env.AI.run(model, { prompt, max_tokens })], then
    [response.response]. *)
Definition AI_run (env : Env) (prompt : string) (max_tokens : nat)
  : M (option string) :=
  fun w =>
    let w' := {| DB := DB w; ai_calls := ai_calls w ++ [(prompt, max_tokens)];
                 console := console w |} in
    match AI env prompt max_tokens with
    | AiThrows e => (Throw e, w')
    | AiReturns r => (Ok r, w')
    end.

Definition with_db (w : World) (d : D1Database) : World :=
  {| DB := d; ai_calls := ai_calls w; console := console w |}.

(** ** Statements against the database *)

(** A bound parameter: [bind] has no SQL value for [undefined] and raises. *)
Definition bound (v : jsval) : M json :=
  match v with
  | Some j => ret j
  | None => throw "D1_TYPE_ERROR: Type 'undefined' not supported"
  end.

(** A [NOT NULL] column refuses [NULL]. *)
Definition not_null (column : string) (v : json) : M unit :=
  match v with
  | JNull => throw ("NOT NULL constraint failed: " ++ column)
  | _ => ret tt
  end.

(** [INSERT INTO feedback (source, content, author, sentiment, urgency,
    themes, processed_at) VALUES (?, ?, ?, ?, ?, ?, CURRENT_TIMESTAMP)];
    the result is [meta.last_row_id]. *)
Definition insert_feedback
    (source content author sentiment urgency themes : jsval) : M nat :=
  source <- bound source ;;
  content <- bound content ;;
  author <- bound author ;;
  sentiment <- bound sentiment ;;
  urgency <- bound urgency ;;
  themes <- bound themes ;;
  not_null "feedback.source" source ;;;
  not_null "feedback.content" content ;;;
  fun w =>
    let d := DB w in
    let id := S (feedback_seq d) in
    let now := current_timestamp d in
    let row :=
      FeedbackItem.mk id source content author sentiment urgency themes
        now (JStr now) in
    (Ok id,
     with_db w
       {| feedback := feedback d ++ [row];
          digests := digests d;
          feedback_seq := id;
          digests_seq := digests_seq d;
          current_timestamp := now |}).

(** [INSERT INTO digests (summary, top_themes, urgent_items,
    sentiment_breakdown, feedback_count) VALUES (?, ?, ?, ?, ?)]. *)
Definition insert_digest
    (summary top_themes urgent_items sentiment_breakdown feedback_count
       : jsval) : M nat :=
  summary <- bound summary ;;
  top_themes <- bound top_themes ;;
  urgent_items <- bound urgent_items ;;
  sentiment_breakdown <- bound sentiment_breakdown ;;
  feedback_count <- bound feedback_count ;;
  not_null "digests.summary" summary ;;;
  fun w =>
    let d := DB w in
    let id := S (digests_seq d) in
    let row :=
      Digest.mk id summary top_themes urgent_items sentiment_breakdown
        feedback_count (current_timestamp d) in
    (Ok id,
     with_db w
       {| feedback := feedback d;
          digests := digests d ++ [row];
          feedback_seq := feedback_seq d;
          digests_seq := id;
          current_timestamp := current_timestamp d |}).

(** [SELECT * FROM feedback ORDER BY created_at DESC LIMIT 50], [.all()]. *)
Definition select_recent_feedback : M (list FeedbackItem.t) :=
  fun w =>
    (Ok (firstn 50 (order_by_desc FeedbackItem.created_at (feedback (DB w)))),
     w).

(** [SELECT * FROM digests ORDER BY created_at DESC LIMIT 1], [.first()]. *)
Definition select_latest_digest : M (option Digest.t) :=
  fun w =>
    (Ok (hd_error (order_by_desc Digest.created_at (digests (DB w)))), w).

(** ** Requests and responses *)

Record Request : Type := {
  method : string;
  pathname : string;
  body : string
}.

Record Response : Type := {
  status : nat;
  headers : list (string * string);
  payload : string
}.

Fixpoint set_header (k v : string) (hs : list (string * string))
  : list (string * string) :=
  match hs with
  | [] => [(k, v)]
  | (k', v') :: r =>
      if String.eqb k k' then (k', v) :: r else (k', v') :: set_header k v r
  end.

(** [new Response(JSON.stringify(o), { status, headers: { ...corsHeaders,
    'Content-Type': 'application/json' } })]. *)
Definition json_response (st : nat) (corsHeaders : list (string * string))
    (o : json) : Response :=
  {| status := st;
     headers := set_header "Content-Type" "application/json" corsHeaders;
     payload := Stringify.stringify o |}.

(** [await request.json()]. *)
Definition request_json (request : Request) : M json :=
  match JSON_parse (body request) with
  | Some j => ret j
  | None => throw "SyntaxError: Unexpected token in JSON"
  end.

(** [o.k], which raises when [o] is [null]. *)
Definition prop (k : string) (o : json) : M jsval :=
  match o with
  | JNull => throw "TypeError: Cannot read properties of null"
  | _ => ret (get k o)
  end.

(** ** [analyseFeedback] *)

Record Analysis : Type := {
  sentiment : json;
  urgency : json;
  themes : json
}.

Definition fallback : Analysis :=
  {| sentiment := JStr "neutral";
     urgency := JStr "medium";
     themes := JStr "general" |}.

Definition analysis_prompt (content : json) : string :=
  bq "Analyse this customer feedback and respond with ONLY a JSON object (no markdown, no explanation):
{
  `sentiment`: `positive` or `negative` or `neutral`,
  `urgency`: `high` or `medium` or `low`,
  `themes`: `comma-separated list of 1-3 themes like: performance, billing, documentation, feature-request, bug, praise`
}

Feedback: `" ++ to_string content ++ bq "`".

(** The text of a reply, [response.response || '']. *)
Definition reply_text (response : option string) : string :=
  to_string (js_or (option_map JStr response) (JStr "")).

(** [JSON.parse(jsonMatch[0])] inside a [try]. *)
Definition parse_or_throw (text : string) : M json :=
  match JSON_parse text with
  | Some j => ret j
  | None => throw "SyntaxError: Unexpected token in JSON"
  end.

(** The body of the [try]: the analysis it returns, or [None] when it falls
    through to the statement after the [catch]. *)
Definition analyse_attempt (env : Env) (content : json)
  : M (option Analysis) :=
  response <- AI_run env (analysis_prompt content) 150 ;;
  let text := reply_text response in
  match match_json text with
  | Some m =>
      parsed <- parse_or_throw m ;;
      ret (Some {| sentiment := js_or (get "sentiment" parsed) (JStr "neutral");
                   urgency := js_or (get "urgency" parsed) (JStr "medium");
                   themes := js_or (get "themes" parsed) (JStr "general") |})
  | None => ret None
  end.

Definition analyseFeedback (env : Env) (content : json) : M Analysis :=
  r <- try_catch (analyse_attempt env content)
         (fun e => console_error ("AI analysis error: " ++ e) ;;; ret None) ;;
  match r with
  | Some a => ret a
  | None => ret fallback
  end.

Definition analysis_object (a : Analysis) : json :=
  JObj [("sentiment", sentiment a); ("urgency", urgency a);
        ("themes", themes a)].

(** ** [handleAddFeedback] *)

Definition handleAddFeedback (request : Request) (env : Env)
    (corsHeaders : list (string * string)) : M Response :=
  body <- request_json request ;;
  source <- prop "source" body ;;
  if negb (truthy_val source) then
    ret (json_response 400 corsHeaders
           (JObj [("error", JStr "source and content are required")]))
  else
    content <- prop "content" body ;;
    if negb (truthy_val content) then
      ret (json_response 400 corsHeaders
             (JObj [("error", JStr "source and content are required")]))
    else
      let content_value := js_or content JNull in
      analysis <- analyseFeedback env content_value ;;
      author <- prop "author" body ;;
      id <- insert_feedback source content (Some (js_or author JNull))
              (Some (sentiment analysis)) (Some (urgency analysis))
              (Some (themes analysis)) ;;
      ret (json_response 200 corsHeaders
             (JObj [("success", JBool true);
                    ("id", JNum (Z.of_nat id));
                    ("analysis", analysis_object analysis)])).

(** ** [handleGenerateDigest] *)

Definition feedback_line (f : FeedbackItem.t) : string :=
  "[" ++ to_string (FeedbackItem.source f) ++ "] (" ++
  to_string (FeedbackItem.sentiment f) ++ ", " ++
  to_string (FeedbackItem.urgency f) ++ " urgency): " ++
  to_string (FeedbackItem.content f).

Definition digest_prompt (results : list FeedbackItem.t) : string :=
  "You are a product manager assistant. Analyse this customer feedback and create a daily digest.

FEEDBACK:
" ++ String.concat (String newline "") (map feedback_line results) ++ bq "

Create a digest with these sections. Respond with ONLY a JSON object:
{
  `summary`: `2-3 sentence executive summary of today's feedback`,
  `top_themes`: [`theme1: count and brief description`, `theme2: count and brief description`, `theme3: count and brief description`],
  `urgent_items`: [`brief description of urgent item 1`, `brief description of urgent item 2`],
  `sentiment_breakdown`: {`positive`: number, `neutral`: number, `negative`: number},
  `recommendations`: [`actionable recommendation 1`, `actionable recommendation 2`]
}".

(** The initial value of [digestData]. *)
Definition default_digest : json :=
  JObj [("summary", JStr "Unable to generate summary");
        ("top_themes", JArr []);
        ("urgent_items", JArr []);
        ("sentiment_breakdown",
         JObj [("positive", JNum 0); ("neutral", JNum 0);
               ("negative", JNum 0)]);
        ("recommendations", JArr [])].

(** The body of the [try]: the new value of [digestData], or [None] when
    no assignment is reached. *)
Definition digest_attempt (env : Env) (results : list FeedbackItem.t)
  : M (option json) :=
  response <- AI_run env (digest_prompt results) 800 ;;
  let text := reply_text response in
  match match_json text with
  | Some m => parsed <- parse_or_throw m ;; ret (Some parsed)
  | None => ret None
  end.

Definition handleGenerateDigest (env : Env)
    (corsHeaders : list (string * string)) : M Response :=
  results <- select_recent_feedback ;;
  if (List.length results =? 0)%nat then
    ret (json_response 400 corsHeaders
           (JObj [("error", JStr "No feedback to analyse")]))
  else
    r <- try_catch (digest_attempt env results)
           (fun e =>
              console_error ("Digest generation error: " ++ e) ;;; ret None) ;;
    let digestData :=
      match r with
      | Some parsed => parsed
      | None => default_digest
      end in
    let count := JNum (Z.of_nat (List.length results)) in
    insert_digest
      (get "summary" digestData)
      (option_map JStr (JSON_stringify (get "top_themes" digestData)))
      (option_map JStr (JSON_stringify (get "urgent_items" digestData)))
      (option_map JStr
         (JSON_stringify (get "sentiment_breakdown" digestData)))
      (Some count) ;;;
    ret (json_response 200 corsHeaders
           (JObj [("success", JBool true);
                  ("digest", digestData);
                  ("feedback_count", count)])).

(** ** [handleGetDigest] *)

(** [JSON.parse(column || fallback)]. *)
Definition parse_column (column : json) (otherwise : string) : M json :=
  parse_or_throw (to_string (js_or (Some column) (JStr otherwise))).

(** The object [{ ...result, top_themes, urgent_items,
    sentiment_breakdown }]: the row with its three JSON columns decoded. *)
Definition digest_object (row : Digest.t)
    (top_themes urgent_items sentiment_breakdown : json) : json :=
  JObj [("id", JNum (Z.of_nat (Digest.id row)));
        ("summary", Digest.summary row);
        ("top_themes", top_themes);
        ("urgent_items", urgent_items);
        ("sentiment_breakdown", sentiment_breakdown);
        ("feedback_count", Digest.feedback_count row);
        ("created_at", JStr (Digest.created_at row))].

(** The response for the row that was found. *)
Definition digest_response (row : Digest.t)
    (corsHeaders : list (string * string)) : M Response :=
  top_themes <- parse_column (Digest.top_themes row) "[]" ;;
  urgent_items <- parse_column (Digest.urgent_items row) "[]" ;;
  sentiment_breakdown <-
    parse_column (Digest.sentiment_breakdown row) "{}" ;;
  ret (json_response 200 corsHeaders
         (digest_object row top_themes urgent_items sentiment_breakdown)).

Definition handleGetDigest (env : Env)
    (corsHeaders : list (string * string)) : M Response :=
  result <- select_latest_digest ;;
  match result with
  | None =>
      ret (json_response 404 corsHeaders
             (JObj [("error",
                     JStr "No digest available. Generate one first.")]))
  | Some row => digest_response row corsHeaders
  end.

(** ** Vocabulary of the statements below *)

(** The elements of an array after the first, and the properties of an
    object after the first, as [JSON.stringify] writes them. *)
Fixpoint more_elements (l : list json) : string :=
  match l with
  | [] => ""
  | y :: l' => String comma (Stringify.stringify y ++ more_elements l')
  end.

Fixpoint more_members (l : list (string * json)) : string :=
  match l with
  | [] => ""
  | (k, y) :: l' =>
      String comma
        (Stringify.quote k ++ String colon (Stringify.stringify y) ++
         more_members l')
  end.

Fixpoint distinct (ks : list string) : bool :=
  match ks with
  | [] => true
  | k :: r => negb (existsb (String.eqb k) r) && distinct r
  end.

(** A value whose objects, at every depth, have each key once: what
    [JSON.parse] returns and what an object literal builds. *)
Fixpoint well_formed (v : json) : bool :=
  match v with
  | JArr xs =>
      (fix all (l : list json) : bool :=
         match l with
         | [] => true
         | x :: r => well_formed x && all r
         end) xs
  | JObj ms =>
      distinct (map fst ms) &&
      (fix all (l : list (string * json)) : bool :=
         match l with
         | [] => true
         | m :: r => well_formed (snd m) && all r
         end) ms
  | _ => true
  end.

(** Calls of the parser that reading a value back takes, at most. *)
Fixpoint need (v : json) : nat :=
  match v with
  | JArr xs =>
      S ((fix go (l : list json) : nat :=
            match l with
            | [] => 0
            | x :: r => S (need x + go r)
            end) xs)
  | JObj ms =>
      S ((fix go (l : list (string * json)) : nat :=
            match l with
            | [] => 0
            | m :: r => S (need (snd m) + go r)
            end) ms)
  | _ => 1
  end.

Definition need_elements (l : list json) : nat :=
  fold_right (fun x n => S (need x + n)) 0 l.

Definition need_members (l : list (string * json)) : nat :=
  fold_right (fun m n => S (need (snd m) + n)) 0 l.

(** A text that does not go on with a digit. *)
Definition no_digit_head (s : string) : Prop :=
  match s with
  | EmptyString => True
  | String c _ => Parse.is_digit c = false
  end.

(** The first character of a written value: never white space, never a
    closing bracket or brace. *)
Definition value_head (c : ascii) : Prop :=
  Parse.is_ws c = false /\ Ascii.eqb c rbracket = false /\
  Ascii.eqb c rbrace = false.

(** Reading a written value back, whatever follows it in the text. *)
Definition reads_back (v : json) : Prop :=
  forall (fuel : nat) (rest : string),
    need v <= fuel -> no_digit_head rest -> well_formed v = true ->
    ParseValue.parse_value fuel (Stringify.stringify v ++ rest) =
    Some (v, rest).

(** [c] occurs in [s]. *)
Fixpoint occurs (c : ascii) (s : string) : bool :=
  match s with
  | EmptyString => false
  | String x r => Ascii.eqb c x || occurs c r
  end.

(** The object the model's reply parses to: [None] when the call raises,
    when the reply has no match for the brace pattern, and when the match
    is not JSON. *)
Definition model_json (env : Env) (prompt : string) (max_tokens : nat)
  : option json :=
  match AI env prompt max_tokens with
  | AiThrows _ => None
  | AiReturns response =>
      match match_json (reply_text response) with
      | Some m => JSON_parse m
      | None => None
      end
  end.


(** The rows [handleGenerateDigest] reads in a given world. *)
Definition recent_feedback (w : World) : list FeedbackItem.t :=
  firstn 50 (order_by_desc FeedbackItem.created_at (feedback (DB w))).

(** The value of [digestData] when the digest is stored. *)
Definition digest_data (env : Env) (w : World) : json :=
  match model_json env (digest_prompt (recent_feedback w)) 800 with
  | Some parsed => parsed
  | None => default_digest
  end.

(** A column as [JSON.stringify] fills it. *)
Definition stored (v : json) : json := JStr (Stringify.stringify v).

(** The analysis as a function of the model's reply. *)
Definition classify (env : Env) (content : json) : Analysis :=
  match model_json env (analysis_prompt content) 150 with
  | Some parsed =>
      {| sentiment := js_or (get "sentiment" parsed) (JStr "neutral");
         urgency := js_or (get "urgency" parsed) (JStr "medium");
         themes := js_or (get "themes" parsed) (JStr "general") |}
  | None => fallback
  end.

(** The world after one call of the model and some lines on the console. *)
Definition after_call (w : World) (prompt : string) (max_tokens : nat)
    (log : list string) : World :=
  {| DB := DB w;
     ai_calls := ai_calls w ++ [(prompt, max_tokens)];
     console := console w ++ log |}.


Definition with_feedback (d : D1Database) (row : FeedbackItem.t)
  : D1Database :=
  {| feedback := feedback d ++ [row];
     digests := digests d;
     feedback_seq := FeedbackItem.id row;
     digests_seq := digests_seq d;
     current_timestamp := current_timestamp d |}.

(** The columns [handleGenerateDigest] binds for a value of [digestData],
    when the statement accepts them: every one defined, the summary not
    [NULL]. *)
Definition digest_columns (data : json)
  : option (json * json * json * json) :=
  match get "summary" data, get "top_themes" data,
        get "urgent_items" data, get "sentiment_breakdown" data with
  | Some s, Some t, Some u, Some b =>
      match s with
      | JNull => None
      | _ => Some (s, stored t, stored u, stored b)
      end
  | _, _, _, _ => None
  end.

Definition new_digest (d : D1Database) (cols : json * json * json * json)
    (count : nat) : Digest.t :=
  let '(s, t, u, b) := cols in
  Digest.mk (S (digests_seq d)) s t u b (JNum (Z.of_nat count))
    (current_timestamp d).

Definition with_digest (d : D1Database) (row : Digest.t) : D1Database :=
  {| feedback := feedback d;
     digests := digests d ++ [row];
     feedback_seq := feedback_seq d;
     digests_seq := Digest.id row;
     current_timestamp := current_timestamp d |}.

(** The body of the response to a digest that was generated. *)
Definition generated (data : json) (count : nat) : json :=
  JObj [("success", JBool true);
        ("digest", data);
        ("feedback_count", JNum (Z.of_nat count))].


(** ** Concrete requests, replies and stores *)

Module Samples.

Definition noon : string := "2026-01-01 12:00:00".

Definition empty_db : D1Database :=
  {| feedback := []; digests := []; feedback_seq := 0; digests_seq := 0;
     current_timestamp := noon |}.

Definition start : World :=
  {| DB := empty_db; ai_calls := []; console := [] |}.

Definition replies (text : string) : Env :=
  {| AI := fun _ _ => AiReturns (Some text) |}.

Definition unavailable : Env :=
  {| AI := fun _ _ => AiThrows "model unavailable" |}.

Definition post (text : string) : Request :=
  {| method := "POST"; pathname := "/api/feedback"; body := text |}.

Definition slow_deploys : Request :=
  post (bq "{`source`:`discord`,`content`:`Deploys are too slow`}").


(** One feedback row in the store. *)
Definition one_row : World :=
  snd (handleAddFeedback slow_deploys unavailable [] start).

Definition digest_at (id : nat) (summary created : string) : Digest.t :=
  Digest.mk id (JStr summary) (JStr "[]") (JStr "[]") (JStr "{}")
    (JNum 1) created.

(** Two digests generated within the same second. *)
Definition same_second : World :=
  {| DB := {| feedback := [];
              digests := [digest_at 1 "first" noon;
                          digest_at 2 "second" noon];
              feedback_seq := 0; digests_seq := 2;
              current_timestamp := noon |};
     ai_calls := []; console := [] |}.

End Samples.

(** * The rest of the worker *)

(** ** [handleGetFeedback] *)

(** A feedback row as the object the database hands back, one property
    per column. *)
Definition feedback_object (row : FeedbackItem.t) : json :=
  JObj [("id", JNum (Z.of_nat (FeedbackItem.id row)));
        ("source", FeedbackItem.source row);
        ("content", FeedbackItem.content row);
        ("author", FeedbackItem.author row);
        ("sentiment", FeedbackItem.sentiment row);
        ("urgency", FeedbackItem.urgency row);
        ("themes", FeedbackItem.themes row);
        ("created_at", JStr (FeedbackItem.created_at row));
        ("processed_at", FeedbackItem.processed_at row)].

(** [SELECT * FROM feedback ORDER BY created_at DESC], [.all()]. *)
Definition select_all_feedback : M (list FeedbackItem.t) :=
  fun w =>
    (Ok (order_by_desc FeedbackItem.created_at (feedback (DB w))), w).

Definition handleGetFeedback (env : Env)
    (corsHeaders : list (string * string)) : M Response :=
  result <- select_all_feedback ;;
  ret (json_response 200 corsHeaders (JArr (map feedback_object result))).

(** ** [handleSeedData] *)

Module Mock.
Record t : Type := mk {
  source : string;
  content : string;
  author : string;
  created_at : string
}.
End Mock.

(** The bundled examples.  [iso_ago ms] is the ISO text of the instant [ms]
    milliseconds before the module was loaded,
    [new Date(Date.now() - ms).toISOString()]. *)
Definition mockFeedback (iso_ago : N -> string) : list Mock.t :=
  [ Mock.mk "discord"
      "The Workers deployment is super slow today. Took almost 2 minutes to deploy a simple change. Anyone else experiencing this?"
      "dev_sarah" (iso_ago 3600000%N);
    Mock.mk "github"
      (bq "Bug: wrangler dev crashes when using D1 bindings locally. Error: `Cannot read property of undefined`. Steps to reproduce attached.")
      "clouduser42" (iso_ago 7200000%N);
    Mock.mk "support_ticket"
      "URGENT: Our production Workers are returning 503 errors intermittently. This is affecting our checkout flow. Please escalate immediately."
      "enterprise_client" (iso_ago 1800000%N);
    Mock.mk "twitter"
      "Just deployed my first @Cloudflare Worker and wow, the DX is incredible! From zero to production in 10 minutes. 🚀"
      "@happy_developer" (iso_ago 5400000%N);
    Mock.mk "discord"
      "Is there any way to increase the CPU time limit for Workers? 50ms is not enough for my AI inference workload."
      "ml_engineer" (iso_ago 9000000%N);
    Mock.mk "github"
      "Feature request: Please add native support for WebSockets in Durable Objects without the need for workarounds."
      "realtime_dev" (iso_ago 10800000%N);
    Mock.mk "support_ticket"
      "Billing question: We were charged for requests that returned errors. Shouldn't failed requests be excluded from billing?"
      "startup_founder" (iso_ago 14400000%N);
    Mock.mk "twitter"
      "The Cloudflare docs are confusing. Spent 3 hours trying to figure out how to set up KV bindings. Need better examples."
      "@frustrated_coder" (iso_ago 18000000%N);
    Mock.mk "discord"
      "Love the new Workers AI! The Llama integration is seamless. Built a chatbot in under an hour."
      "ai_enthusiast" (iso_ago 21600000%N);
    Mock.mk "github"
      "Documentation bug: The D1 SQL syntax examples show deprecated commands. Please update to current API."
      "docs_contributor" (iso_ago 25200000%N);
    Mock.mk "support_ticket"
      "How do I migrate from AWS Lambda to Cloudflare Workers? Looking for a migration guide or best practices document."
      "migration_team" (iso_ago 28800000%N);
    Mock.mk "twitter"
      "Cloudflare Workers pricing is unbeatable. Moved our entire API and saving 70% compared to AWS. Highly recommend!"
      "@cost_saver" (iso_ago 32400000%N) ].

(** [INSERT INTO feedback (source, content, author, sentiment, urgency,
    themes, created_at, processed_at)
    VALUES (?, ?, ?, ?, ?, ?, ?, CURRENT_TIMESTAMP)]; the seventh
    parameter is the text of a mock item. *)
Definition insert_feedback_at
    (source content author sentiment urgency themes : jsval)
    (created_at : string) : M nat :=
  source <- bound source ;;
  content <- bound content ;;
  author <- bound author ;;
  sentiment <- bound sentiment ;;
  urgency <- bound urgency ;;
  themes <- bound themes ;;
  not_null "feedback.source" source ;;;
  not_null "feedback.content" content ;;;
  fun w =>
    let d := DB w in
    let id := S (feedback_seq d) in
    let row :=
      FeedbackItem.mk id source content author sentiment urgency themes
        created_at (JStr (current_timestamp d)) in
    (Ok id,
     with_db w
       {| feedback := feedback d ++ [row];
          digests := digests d;
          feedback_seq := id;
          digests_seq := digests_seq d;
          current_timestamp := current_timestamp d |}).

(** The [for] loop: the value of [seededCount] after the items. *)
Fixpoint seed_loop (env : Env) (items : list Mock.t) (seededCount : nat)
  : M nat :=
  match items with
  | [] => ret seededCount
  | feedback :: rest =>
      analysis <- analyseFeedback env (JStr (Mock.content feedback)) ;;
      insert_feedback_at
        (Some (JStr (Mock.source feedback)))
        (Some (JStr (Mock.content feedback)))
        (Some (js_or (Some (JStr (Mock.author feedback))) JNull))
        (Some (sentiment analysis)) (Some (urgency analysis))
        (Some (themes analysis))
        (Mock.created_at feedback) ;;;
      seed_loop env rest (S seededCount)
  end.

Definition handleSeedData (items : list Mock.t) (env : Env)
    (corsHeaders : list (string * string)) : M Response :=
  seededCount <- seed_loop env items 0 ;;
  ret (json_response 200 corsHeaders
         (JObj [("success", JBool true);
                ("message",
                 JStr ("Seeded " ++
                       Stringify.string_of_Z (Z.of_nat seededCount) ++
                       " feedback items with AI analysis")%string)])).

(** ** [handleInitDb]

    Both tables are there in every database of this development, so each
    [CREATE TABLE IF NOT EXISTS] finds its table and does nothing. *)
Definition create_table_if_not_exists : M unit := ret tt.

Definition handleInitDb (env : Env)
    (corsHeaders : list (string * string)) : M Response :=
  try_catch
    (create_table_if_not_exists ;;;
     create_table_if_not_exists ;;;
     ret (json_response 200 corsHeaders
            (JObj [("success", JBool true);
                   ("message", JStr "Database initialized")])))
    (fun error =>
       ret (json_response 500 corsHeaders
              (JObj [("success", JBool false); ("error", JStr error)]))).

(** ** [handleSlackWebhook] *)

(** One line of the message: a bullet and the item. *)
Definition bullet (x : json) : string := ("• " ++ to_string x)%string.

(** [xs.map(x => `• ${x}`)]: a list of lines for an array, a [TypeError]
    for anything else, which has no [map] to call. *)
Definition map_bullets (name : string) (v : json) : M (list string) :=
  match v with
  | JArr xs => ret (map bullet xs)
  | JNull => throw "TypeError: Cannot read properties of null"
  | _ => throw ("TypeError: " ++ name ++ ".map is not a function")%string
  end.

(** [lines.join('\n') || otherwise]. *)
Definition joined_or (lines : list string) (otherwise : string) : string :=
  let text := String.concat (String newline "") lines in
  if String.eqb text "" then otherwise else text.

(** [o.k || 0] inside a template literal. *)
Definition count_text (k : string) (o : json) : M string :=
  v <- prop k o ;;
  ret (to_string (js_or v (JNum 0))).

Definition mrkdwn (text : string) : json :=
  JObj [("type", JStr "mrkdwn"); ("text", JStr text)].

Definition section (text : string) : json :=
  JObj [("type", JStr "section"); ("text", mrkdwn text)].

(** The object literal [slackMessage], given the texts and lines computed
    for it. *)
Definition slack_blocks (result : Digest.t)
    (positive neutral negative : string) (themes urgent : list string)
  : json :=
  JObj
    [("blocks",
      JArr
        [JObj [("type", JStr "header");
               ("text",
                JObj [("type", JStr "plain_text");
                      ("text", JStr "📊 Daily Feedback Pulse");
                      ("emoji", JBool true)])];
         section
           ("*Summary*" ++ String newline "" ++
            to_string (Digest.summary result))%string;
         section
           ("*Sentiment*" ++ String newline "" ++
            "✅ Positive: " ++ positive ++
            " | 😐 Neutral: " ++ neutral ++
            " | ❌ Negative: " ++ negative)%string;
         section
           ("*Top Themes*" ++ String newline "" ++
            joined_or themes "None identified")%string;
         section
           ("*🚨 Urgent Items*" ++ String newline "" ++
            joined_or urgent "None")%string;
         JObj [("type", JStr "context");
               ("elements",
                JArr
                  [mrkdwn
                     ("Based on " ++
                      to_string (Digest.feedback_count result) ++
                      " feedback items | Generated " ++
                      Digest.created_at result)%string])]])].

(** The message for the row that was found. *)
Definition slack_message (result : Digest.t) : M json :=
  topThemes <- parse_column (Digest.top_themes result) "[]" ;;
  urgentItems <- parse_column (Digest.urgent_items result) "[]" ;;
  sentimentBreakdown <-
    parse_column (Digest.sentiment_breakdown result) "{}" ;;
  positive <- count_text "positive" sentimentBreakdown ;;
  neutral <- count_text "neutral" sentimentBreakdown ;;
  negative <- count_text "negative" sentimentBreakdown ;;
  themes <- map_bullets "topThemes" topThemes ;;
  urgent <- map_bullets "urgentItems" urgentItems ;;
  ret (slack_blocks result positive neutral negative themes urgent).

Definition handleSlackWebhook (env : Env)
    (corsHeaders : list (string * string)) : M Response :=
  result <- select_latest_digest ;;
  match result with
  | None =>
      ret (json_response 200 corsHeaders
             (JObj [("text",
                     JStr "No digest available yet. Visit the dashboard to generate one.")]))
  | Some row =>
      slackMessage <- slack_message row ;;
      ret (json_response 200 corsHeaders slackMessage)
  end.

(** ** [handleHome] and the router *)

(** [html] is the text of the page, a constant of the source. *)
Definition handleHome (html : string) (env : Env)
    (corsHeaders : list (string * string)) : M Response :=
  ret {| status := 200;
         headers := set_header "Content-Type" "text/html" corsHeaders;
         payload := html |}.

Definition corsHeaders : list (string * string) :=
  [("Access-Control-Allow-Origin", "*");
   ("Access-Control-Allow-Methods", "GET, POST, OPTIONS");
   ("Access-Control-Allow-Headers", "Content-Type")].

(** [path === p && request.method === m]. *)
Definition at_route (request : Request) (p m : string) : bool :=
  String.eqb (pathname request) p && String.eqb (method request) m.

(** The body of the [try] of [fetch]. *)
Definition route (html : string) (items : list Mock.t)
    (request : Request) (env : Env) : M Response :=
  if at_route request "/" "GET" then handleHome html env corsHeaders
  else if at_route request "/api/feedback" "POST" then
    handleAddFeedback request env corsHeaders
  else if at_route request "/api/feedback" "GET" then
    handleGetFeedback env corsHeaders
  else if at_route request "/api/digest" "GET" then
    handleGetDigest env corsHeaders
  else if at_route request "/api/digest/generate" "POST" then
    handleGenerateDigest env corsHeaders
  else if at_route request "/api/seed" "POST" then
    handleSeedData items env corsHeaders
  else if at_route request "/api/init" "POST" then
    handleInitDb env corsHeaders
  else if at_route request "/webhook/slack" "GET" then
    handleSlackWebhook env corsHeaders
  else
    ret (json_response 404 corsHeaders (JObj [("error", JStr "Not Found")])).

(** [fetch]: [html] and [items] stand for the page and the examples the
    module holds. *)
Definition fetch (html : string) (items : list Mock.t)
    (request : Request) (env : Env) : M Response :=
  if String.eqb (method request) "OPTIONS" then
    ret {| status := 200; headers := corsHeaders; payload := "" |}
  else
    try_catch (route html items request env)
      (fun error =>
         console_error ("Error: " ++ error)%string ;;;
         ret (json_response 500 corsHeaders
                (JObj [("error", JStr "Internal Server Error");
                       ("details", JStr error)]))).

(** ** Vocabulary of the statements on the rest of the worker *)

(** Every run of [m] takes a world to one that [R] relates to it. *)
Definition moves {A : Type} (R : World -> World -> Prop) (m : M A) : Prop :=
  forall w, R w (snd (m w)).

(** Whatever [m] returns satisfies [P]. *)
Definition answers {A : Type} (P : A -> Prop) (m : M A) : Prop :=
  forall w,
    match fst (m w) with
    | Ok a => P a
    | Throw _ => True
    end.

(** [I] is carried from the database before to the database after. *)
Definition keeps (I : D1Database -> Prop) (w w' : World) : Prop :=
  I (DB w) -> I (DB w').

(** Nothing stored and no model call: only the console may differ. *)
Definition read_only (w w' : World) : Prop :=
  DB w' = DB w /\ ai_calls w' = ai_calls w.

(** The rows that were there are still there, as they were and where they
    were; rows may have been added after them. *)
Definition appends (w w' : World) : Prop :=
  (exists added, feedback (DB w') = feedback (DB w) ++ added) /\
  (exists added, digests (DB w') = digests (DB w) ++ added) /\
  current_timestamp (DB w') = current_timestamp (DB w).

(** No id is used twice and none is ahead of its counter. *)
Definition ids_fresh (d : D1Database) : Prop :=
  NoDup (map FeedbackItem.id (feedback d)) /\
  (forall r, In r (feedback d) -> FeedbackItem.id r <= feedback_seq d) /\
  NoDup (map Digest.id (digests d)) /\
  (forall r, In r (digests d) -> Digest.id r <= digests_seq d).

(** Every feedback row carries a classification: three truthy values. *)
Definition classified (d : D1Database) : Prop :=
  forall r,
    In r (feedback d) ->
    truthy (FeedbackItem.sentiment r) = true /\
    truthy (FeedbackItem.urgency r) = true /\
    truthy (FeedbackItem.themes r) = true.

(** A response of the router: one of its four statuses, and the
    cross-origin headers among its headers. *)
Definition framed (resp : Response) : Prop :=
  In (status resp) [200; 400; 404; 500] /\ incl corsHeaders (headers resp).

(** The pairs of path and method the router knows. *)
Definition known_route (request : Request) : bool :=
  at_route request "/" "GET" ||
  at_route request "/api/feedback" "POST" ||
  at_route request "/api/feedback" "GET" ||
  at_route request "/api/digest" "GET" ||
  at_route request "/api/digest/generate" "POST" ||
  at_route request "/api/seed" "POST" ||
  at_route request "/api/init" "POST" ||
  at_route request "/webhook/slack" "GET".


(** The rows seeding adds for a list of items, the first with the id after
    [seq]. *)
Fixpoint seeded_rows (env : Env) (seq : nat) (now : string)
    (items : list Mock.t) : list FeedbackItem.t :=
  match items with
  | [] => []
  | item :: rest =>
      let a := classify env (JStr (Mock.content item)) in
      FeedbackItem.mk (S seq)
        (JStr (Mock.source item)) (JStr (Mock.content item))
        (js_or (Some (JStr (Mock.author item))) JNull)
        (sentiment a) (urgency a) (themes a)
        (Mock.created_at item) (JStr now)
      :: seeded_rows env (S seq) now rest
  end.

(** The model calls seeding makes, one per item. *)
Definition seed_calls (items : list Mock.t) : list (string * nat) :=
  map (fun item => (analysis_prompt (JStr (Mock.content item)), 150)) items.

(** [Array.isArray(v)]. *)
Definition is_array (v : json) : bool :=
  match v with
  | JArr _ => true
  | _ => false
  end.



(** * Proofs *)

Local Open Scope string_scope.


(** ** Facts on strings *)

Lemma append_assoc (a b c : string) : (a ++ b) ++ c = a ++ (b ++ c).
Proof. induction a as [|x a IH]; simpl; [reflexivity | now rewrite IH]. Qed.

Lemma append_nil_r (a : string) : a ++ "" = a.
Proof. induction a as [|x a IH]; simpl; [reflexivity | now rewrite IH]. Qed.

Lemma length_append (a b : string) :
  String.length (a ++ b) = String.length a + String.length b.
Proof. induction a as [|x a IH]; simpl; [reflexivity | now rewrite IH]. Qed.

(** ** String literals: reading back what [escape] wrote *)

Import Stringify Parse.

Lemma parse_chars_escape_char (c : ascii) (t : string) :
  parse_chars (escape_char c ++ t) =
  match parse_chars t with
  | Some (x, u) => Some (String c x, u)
  | None => None
  end.
Proof.
  destruct c as [[] [] [] [] [] [] [] []]; reflexivity.
Qed.

Lemma parse_chars_escape (s rest : string) :
  parse_chars (escape s ++ String dquote rest) = Some (s, rest).
Proof.
  induction s as [|c s IH]; simpl.
  - reflexivity.
  - rewrite append_assoc, parse_chars_escape_char, IH. reflexivity.
Qed.

(** ** Integer literals *)

Lemma scan_digits_string_of_uint (d : Decimal.uint) (rest : string) :
  no_digit_head rest ->
  scan_digits (NilEmpty.string_of_uint d ++ rest) = (d, rest).
Proof.
  intros Hrest. induction d; simpl;
    try (rewrite IHd; reflexivity).
  destruct rest as [|c r]; simpl in *; [reflexivity | now rewrite Hrest].
Qed.

Lemma to_uint_head (p : positive) :
  match Pos.to_uint p with
  | Decimal.Nil | Decimal.D0 _ => False
  | _ => True
  end.
Proof.
  pose proof (Unsigned.to_of (Pos.to_uint p)) as H.
  rewrite Unsigned.of_to in H. simpl in H.
  pose proof (Unsigned.to_uint_nonnil p) as Hnil.
  pose proof (Unsigned.to_uint_nonzero p) as Hz.
  destruct (Pos.to_uint p) as [|u|u|u|u|u|u|u|u|u|u] eqn:E; try exact I;
    try (now apply Hnil).
  rewrite unorm_D0 in H.
  unfold Decimal.unorm in H.
  destruct (Decimal.nzhead u) eqn:En; try discriminate.
  - injection H as ->. now apply Hz.
  - exact (nzhead_nonzero u _ En).
Qed.

Lemma parse_unsigned (p : positive) (rest : string) :
  no_digit_head rest ->
  exists c r,
    NilEmpty.string_of_uint (Pos.to_uint p) ++ rest = String c r /\
    Ascii.eqb c "0" = false /\ Ascii.eqb c minus = false /\
    is_digit c = true /\
    scan_digits (String c r) = (Pos.to_uint p, rest).
Proof.
  intros Hrest.
  pose proof (to_uint_head p) as Hh.
  pose proof (scan_digits_string_of_uint (Pos.to_uint p) rest Hrest) as Hs.
  destruct (Pos.to_uint p) eqn:E; try contradiction; simpl in *;
    eexists _, _; (split; [reflexivity|]); repeat split; exact Hs.
Qed.

Lemma parse_number_string_of_Z (n : Z) (rest : string) :
  no_digit_head rest ->
  parse_number (string_of_Z n ++ rest) = Some (JNum n, rest).
Proof.
  intros Hrest. unfold string_of_Z.
  destruct n as [|p|p]; cbn [Z.to_int NilZero.string_of_int append].
  - reflexivity.
  - unfold NilZero.string_of_uint.
    destruct (parse_unsigned p rest Hrest) as (c & r & E & H0 & Hm & Hd & Hs).
    assert (Hnn : NilEmpty.string_of_uint (Pos.to_uint p) ++ rest =
                  (match Pos.to_uint p with
                   | Decimal.Nil => "0"
                   | _ => NilEmpty.string_of_uint (Pos.to_uint p)
                   end) ++ rest).
    { pose proof (to_uint_head p). destruct (Pos.to_uint p); tauto. }
    rewrite <- Hnn, E. unfold parse_number. rewrite Hm, H0, Hd, Hs.
    unfold Z.of_uint. rewrite Unsigned.of_to. reflexivity.
  - unfold NilZero.string_of_uint.
    destruct (parse_unsigned p rest Hrest) as (c & r & E & H0 & Hm & Hd & Hs).
    assert (Hnn : NilEmpty.string_of_uint (Pos.to_uint p) ++ rest =
                  (match Pos.to_uint p with
                   | Decimal.Nil => "0"
                   | _ => NilEmpty.string_of_uint (Pos.to_uint p)
                   end) ++ rest).
    { pose proof (to_uint_head p). destruct (Pos.to_uint p); tauto. }
    rewrite <- Hnn, E. unfold parse_number.
    change (Ascii.eqb "-" minus) with true. cbv iota beta.
    rewrite H0, Hd, Hs. unfold Z.of_uint. rewrite Unsigned.of_to.
    reflexivity.
Qed.

(** ** The shape of what [stringify] writes *)

Lemma stringify_arr_cons (x : json) (r : list json) :
  stringify (JArr (x :: r)) =
  String lbracket (stringify x ++ more_elements r ++ String rbracket "").
Proof. cbn [stringify]. rewrite append_assoc. reflexivity. Qed.

Lemma stringify_obj_cons (k : string) (x : json) (r : list (string * json)) :
  stringify (JObj ((k, x) :: r)) =
  String lbrace
    (quote k ++
     String colon (stringify x ++ more_members r ++ String rbrace "")).
Proof.
  cbn [stringify]. rewrite append_assoc. cbn [append].
  rewrite append_assoc. reflexivity.
Qed.

Lemma need_arr (xs : list json) : need (JArr xs) = S (need_elements xs).
Proof. reflexivity. Qed.

Lemma need_obj (ms : list (string * json)) :
  need (JObj ms) = S (need_members ms).
Proof. reflexivity. Qed.

Lemma well_formed_arr (xs : list json) :
  well_formed (JArr xs) = forallb well_formed xs.
Proof. reflexivity. Qed.

Lemma well_formed_obj (ms : list (string * json)) :
  well_formed (JObj ms) =
  distinct (map fst ms) && forallb (fun m => well_formed (snd m)) ms.
Proof. reflexivity. Qed.

Lemma string_of_Z_head (n : Z) (rest : string) :
  exists c r,
    string_of_Z n ++ rest = String c r /\
    (is_digit c = true \/ c = minus).
Proof.
  unfold string_of_Z. destruct n as [|p|p];
    cbn [Z.to_int NilZero.string_of_int append].
  - eexists _, _. split; [reflexivity | now left].
  - unfold NilZero.string_of_uint. pose proof (to_uint_head p) as H.
    destruct (Pos.to_uint p); try contradiction;
      (eexists _, _; split; [reflexivity | now left]).
  - eexists _, _. split; [reflexivity | now right].
Qed.

Lemma number_head_tests (c : ascii) :
  is_digit c = true \/ c = minus ->
  value_head c /\ Ascii.eqb c lbrace = false /\
  Ascii.eqb c lbracket = false /\ Ascii.eqb c dquote = false /\
  Ascii.eqb c "t" = false /\ Ascii.eqb c "f" = false /\
  Ascii.eqb c "n" = false.
Proof.
  unfold value_head.
  destruct c as [[] [] [] [] [] [] [] []]; cbn;
    intros [H|H]; try discriminate; repeat split.
Qed.

Lemma stringify_head (v : json) (rest : string) :
  exists c r, stringify v ++ rest = String c r /\ value_head c.
Proof.
  destruct v as [|[]|n|s|xs|ms].
  1-3: (eexists _, _; split; [reflexivity | now repeat split]).
  - destruct (string_of_Z_head n rest) as (c & r & E & H).
    exists c, r. split; [exact E | now apply number_head_tests].
  - eexists _, _; split; [reflexivity | now repeat split].
  - eexists _, _; split; [reflexivity | now repeat split].
  - eexists _, _; split; [reflexivity | now repeat split].
Qed.

(** ** Properties read back in the order they were written *)

Lemma distinct_NoDup (ks : list string) : distinct ks = true <-> NoDup ks.
Proof.
  induction ks as [|k r IH]; cbn [distinct].
  - split; [constructor | reflexivity].
  - rewrite andb_true_iff, negb_true_iff, IH. split.
    + intros [Hk Hr]. constructor; [|exact Hr].
      intros Hin. apply Bool.not_true_iff_false in Hk. apply Hk.
      apply existsb_exists. exists k. split; [exact Hin|apply String.eqb_refl].
    + intros H. inversion H as [|? ? Hk Hr]; subst. split; [|exact Hr].
      apply Bool.not_true_iff_false. intros He.
      apply existsb_exists in He. destruct He as (k' & Hin & He).
      apply String.eqb_eq in He. subst k'. contradiction.
Qed.

Lemma obj_set_fresh (k : string) (v : json) (acc : list (string * json)) :
  ~ In k (map fst acc) -> obj_set k v acc = (acc ++ [(k, v)])%list.
Proof.
  induction acc as [|[k' v'] acc IH]; cbn [obj_set map fst In app]; intros H.
  - reflexivity.
  - destruct (String.eqb_spec k k') as [->|Hne].
    + exfalso. apply H. now left.
    + rewrite IH; [reflexivity|]. intros Hin. apply H. now right.
Qed.

Lemma dedup_from (ms acc : list (string * json)) :
  NoDup (map fst acc ++ map fst ms)%list ->
  fold_left (fun a m => obj_set (fst m) (snd m) a) ms acc = (acc ++ ms)%list.
Proof.
  revert acc. induction ms as [|[k v] ms IH]; intros acc H; cbn [fold_left].
  - now rewrite List.app_nil_r.
  - cbn [map fst snd] in *. rewrite obj_set_fresh.
    + rewrite IH.
      * now rewrite <- List.app_assoc.
      * rewrite List.map_app. cbn [map fst]. now rewrite <- List.app_assoc.
    + apply NoDup_remove_2 in H. intros Hin. apply H.
      apply in_or_app. now left.
Qed.

Lemma dedup_distinct (ms : list (string * json)) :
  distinct (map fst ms) = true -> dedup ms = ms.
Proof.
  intros H. unfold dedup. rewrite dedup_from; [reflexivity|].
  now apply distinct_NoDup.
Qed.

(** ** Reading back what [stringify] wrote *)

Import ParseValue.

Lemma parse_elements_S (f : nat) (s : string) :
  parse_elements (S f) s =
  match parse_value f s with
  | None => None
  | Some (v, t) =>
      match skip_ws t with
      | EmptyString => None
      | String c r =>
          if Ascii.eqb c comma then
            match parse_elements f r with
            | Some (vs, u) => Some (v :: vs, u)
            | None => None
            end
          else if Ascii.eqb c rbracket then Some ([v], r)
          else None
      end
  end.
Proof. reflexivity. Qed.

Lemma skip_ws_head (c : ascii) (t : string) :
  is_ws c = false -> skip_ws (String c t) = String c t.
Proof. intros H. cbn [skip_ws]. now rewrite H. Qed.

Lemma no_digit_head_elements (r : list json) (rest : string) :
  no_digit_head (more_elements r ++ String rbracket rest).
Proof. destruct r; reflexivity. Qed.

Lemma no_digit_head_members (r : list (string * json)) (rest : string) :
  no_digit_head (more_members r ++ String rbrace rest).
Proof. destruct r as [|[k v] r]; reflexivity. Qed.

Lemma parse_elements_reads_back (r : list json) :
  Forall reads_back r ->
  forall (x : json) (fuel : nat) (rest : string),
    reads_back x ->
    S (need x + need_elements r) <= fuel ->
    well_formed x = true -> forallb well_formed r = true ->
    parse_elements fuel
      (stringify x ++ more_elements r ++ String rbracket rest) =
    Some (x :: r, rest).
Proof.
  induction 1 as [|y r Hy Hr IH]; intros x fuel rest Hx Hfuel Wx Wr;
    (destruct fuel as [|f]; [lia|]); rewrite parse_elements_S;
    rewrite (Hx f); try lia; try exact Wx;
    try apply no_digit_head_elements.
  - reflexivity.
  - cbn [forallb] in Wr. apply andb_true_iff in Wr. destruct Wr as [Wy Wr].
    cbn [need_elements fold_right] in Hfuel.
    cbn [more_elements append]. rewrite append_assoc.
    rewrite skip_ws_head by reflexivity.
    change (Ascii.eqb comma comma) with true. cbv iota.
    rewrite IH; try assumption; [reflexivity|].
    fold (need_elements r) in Hfuel. lia.
Qed.

Lemma parse_members_S (f : nat) (s : string) :
  parse_members (S f) s =
  match skip_ws s with
  | EmptyString => None
  | String c r =>
      if Ascii.eqb c dquote then
        match parse_chars r with
        | None => None
        | Some (k, t) =>
            match skip_ws t with
            | EmptyString => None
            | String c1 r1 =>
                if Ascii.eqb c1 colon then
                  match parse_value f r1 with
                  | None => None
                  | Some (v, u) =>
                      match skip_ws u with
                      | EmptyString => None
                      | String c2 r2 =>
                          if Ascii.eqb c2 comma then
                            match parse_members f r2 with
                            | Some (ms, w) => Some ((k, v) :: ms, w)
                            | None => None
                            end
                          else if Ascii.eqb c2 rbrace
                          then Some ([(k, v)], r2)
                          else None
                      end
                  end
                else None
            end
        end
      else None
  end.
Proof. reflexivity. Qed.

Lemma quote_append (k rest : string) :
  quote k ++ rest = String dquote (escape k ++ String dquote rest).
Proof. unfold quote. cbn [append]. now rewrite append_assoc. Qed.

Lemma parse_members_reads_back (r : list (string * json)) :
  Forall (fun m => reads_back (snd m)) r ->
  forall (k : string) (x : json) (fuel : nat) (rest : string),
    reads_back x ->
    S (need x + need_members r) <= fuel ->
    well_formed x = true ->
    forallb (fun m => well_formed (snd m)) r = true ->
    parse_members fuel
      (quote k ++
       String colon (stringify x ++ more_members r ++ String rbrace rest)) =
    Some ((k, x) :: r, rest).
Proof.
  induction 1 as [|[k' y] r Hy Hr IH]; intros k x fuel rest Hx Hfuel Wx Wr;
    (destruct fuel as [|f]; [lia|]); rewrite parse_members_S;
    rewrite quote_append, skip_ws_head by reflexivity;
    change (Ascii.eqb dquote dquote) with true; cbv iota;
    rewrite parse_chars_escape, skip_ws_head by reflexivity;
    change (Ascii.eqb colon colon) with true; cbv iota;
    rewrite (Hx f); try lia; try exact Wx;
    try apply no_digit_head_members.
  - reflexivity.
  - cbn [forallb snd] in Wr. apply andb_true_iff in Wr.
    destruct Wr as [Wy Wr].
    cbn [need_members fold_right snd] in Hfuel.
    cbn [more_members append]. rewrite !append_assoc.
    rewrite skip_ws_head by reflexivity.
    change (Ascii.eqb comma comma) with true. cbv iota.
    cbn [snd] in Hy.
    pose proof (IH k' y f rest Hy) as IH'.
    cbn [append]. rewrite ?append_assoc.
    rewrite IH'; try assumption; [reflexivity|].
    fold (need_members r) in Hfuel. lia.
Qed.

Lemma parse_value_S (f : nat) (s : string) :
  parse_value (S f) s =
  match skip_ws s with
  | EmptyString => None
  | String c r =>
      if Ascii.eqb c lbrace then
        match skip_ws r with
        | EmptyString => None
        | String c' r' =>
            if Ascii.eqb c' rbrace then Some (JObj [], r')
            else
              match parse_members f r with
              | Some (ms, t) => Some (JObj (dedup ms), t)
              | None => None
              end
        end
      else if Ascii.eqb c lbracket then
        match skip_ws r with
        | EmptyString => None
        | String c' r' =>
            if Ascii.eqb c' rbracket then Some (JArr [], r')
            else
              match parse_elements f r with
              | Some (vs, t) => Some (JArr vs, t)
              | None => None
              end
        end
      else if Ascii.eqb c dquote then
        match parse_chars r with
        | Some (x, t) => Some (JStr x, t)
        | None => None
        end
      else if Ascii.eqb c "t" then
        match strip "rue" r with
        | Some t => Some (JBool true, t)
        | None => None
        end
      else if Ascii.eqb c "f" then
        match strip "alse" r with
        | Some t => Some (JBool false, t)
        | None => None
        end
      else if Ascii.eqb c "n" then
        match strip "ull" r with
        | Some t => Some (JNull, t)
        | None => None
        end
      else parse_number (String c r)
  end.
Proof. reflexivity. Qed.

Lemma reads_back_number (n : Z) : reads_back (JNum n).
Proof.
  intros fuel rest Hfuel Hrest _. destruct fuel as [|f]; [cbn in Hfuel; lia|].
  rewrite parse_value_S. cbn [stringify].
  destruct (string_of_Z_head n rest) as (c & r & E & Hc).
  pose proof (parse_number_string_of_Z n rest Hrest) as Hp.
  rewrite E in *.
  destruct (number_head_tests c Hc)
    as ((Hws & _ & _) & H1 & H2 & H3 & H4 & H5 & H6).
  rewrite skip_ws_head by exact Hws.
  now rewrite H1, H2, H3, H4, H5, H6.
Qed.

Lemma reads_back_string (s : string) : reads_back (JStr s).
Proof.
  intros fuel rest Hfuel _ _. destruct fuel as [|f]; [cbn in Hfuel; lia|].
  rewrite parse_value_S. cbn [stringify]. rewrite quote_append.
  rewrite skip_ws_head by reflexivity.
  change (Ascii.eqb dquote lbrace) with false.
  change (Ascii.eqb dquote lbracket) with false.
  change (Ascii.eqb dquote dquote) with true. cbv iota.
  now rewrite parse_chars_escape.
Qed.

Lemma reads_back_array (xs : list json) :
  Forall reads_back xs -> reads_back (JArr xs).
Proof.
  intros Hxs fuel rest Hfuel _ W. rewrite need_arr in Hfuel.
  rewrite well_formed_arr in W.
  destruct fuel as [|f]; [lia|]. rewrite parse_value_S.
  destruct xs as [|x r]; [reflexivity|].
  rewrite stringify_arr_cons. cbn [append].
  rewrite skip_ws_head by reflexivity.
  change (Ascii.eqb lbracket lbrace) with false.
  change (Ascii.eqb lbracket lbracket) with true. cbv iota.
  rewrite !append_assoc. cbn [append].
  destruct (stringify_head x (more_elements r ++ String rbracket rest))
    as (c & t & E & Hws & Hb & _).
  inversion Hxs as [|? ? Hx Hr]; subst.
  cbn [forallb] in W. apply andb_true_iff in W. destruct W as [Wx Wr].
  pose proof (parse_elements_reads_back r Hr x f rest Hx) as Hp.
  cbn [need_elements fold_right] in Hfuel. fold (need_elements r) in Hfuel.
  rewrite E in *. rewrite skip_ws_head by exact Hws. rewrite Hb.
  rewrite Hp; [reflexivity | lia | exact Wx | exact Wr].
Qed.

Lemma reads_back_object (ms : list (string * json)) :
  Forall (fun m => reads_back (snd m)) ms -> reads_back (JObj ms).
Proof.
  intros Hms fuel rest Hfuel _ W. rewrite need_obj in Hfuel.
  rewrite well_formed_obj in W. apply andb_true_iff in W.
  destruct W as [Wk W].
  destruct fuel as [|f]; [lia|]. rewrite parse_value_S.
  destruct ms as [|[k x] r]; [reflexivity|].
  rewrite stringify_obj_cons. cbn [append].
  rewrite skip_ws_head by reflexivity.
  change (Ascii.eqb lbrace lbrace) with true. cbv iota.
  inversion Hms as [|? ? Hx Hr]; subst. cbn [snd] in Hx.
  cbn [forallb snd] in W. apply andb_true_iff in W. destruct W as [Wx Wr].
  pose proof (parse_members_reads_back r Hr k x f rest Hx) as Hp.
  cbn [need_members fold_right snd] in Hfuel.
  fold (need_members r) in Hfuel.
  rewrite ?append_assoc. cbn [append]. rewrite ?append_assoc.
  cbn [append].
  rewrite Hp; [|lia | exact Wx | exact Wr].
  rewrite quote_append. rewrite skip_ws_head by reflexivity.
  change (Ascii.eqb dquote rbrace) with false. cbv iota.
  now rewrite dedup_distinct.
Qed.

Lemma reads_back_all (v : json) : reads_back v.
Proof.
  induction v as [| b | n | s | xs IH | ms IH] using json_ind.
  - intros [|f] rest Hf _ _; [cbn in Hf; lia | reflexivity].
  - intros [|f] rest Hf _ _; [cbn in Hf; lia | now destruct b].
  - apply reads_back_number.
  - apply reads_back_string.
  - now apply reads_back_array.
  - now apply reads_back_object.
Qed.

(** ** Enough fuel for any written value *)

Lemma length_quote (s : string) : 2 <= String.length (quote s).
Proof.
  unfold quote. cbn [String.length]. rewrite length_append.
  cbn [String.length]. lia.
Qed.

Lemma need_elements_length (r : list json) :
  Forall (fun x => need x + 1 <= 2 * String.length (stringify x)) r ->
  need_elements r <= 2 * String.length (more_elements r).
Proof.
  induction 1 as [|y r Hy Hr IH]; cbn [need_elements fold_right more_elements];
    [cbn; lia|].
  fold (need_elements r). cbn [String.length]. rewrite length_append. lia.
Qed.

Lemma need_members_length (r : list (string * json)) :
  Forall (fun m => need (snd m) + 1 <= 2 * String.length (stringify (snd m)))
    r ->
  need_members r <= 2 * String.length (more_members r).
Proof.
  induction 1 as [|[k y] r Hy Hr IH];
    cbn [need_members fold_right more_members snd]; [cbn; lia|].
  fold (need_members r). cbn [snd] in Hy.
  cbn [String.length]. rewrite length_append. cbn [append String.length].
  rewrite length_append. lia.
Qed.

Lemma need_length (v : json) :
  need v + 1 <= 2 * String.length (stringify v).
Proof.
  induction v as [| b | n | s | xs IH | ms IH] using json_ind.
  - cbn. lia.
  - destruct b; cbn; lia.
  - destruct (string_of_Z_head n "") as (c & r & E & _).
    rewrite append_nil_r in E. cbn [stringify need]. rewrite E.
    cbn [String.length]. lia.
  - pose proof (length_quote s). cbn [stringify need]. lia.
  - rewrite need_arr. destruct xs as [|x r]; [cbn; lia|].
    inversion IH as [|? ? Hx Hr]; subst.
    pose proof (need_elements_length r Hr).
    rewrite stringify_arr_cons. cbn [need_elements fold_right].
    fold (need_elements r). cbn [String.length].
    rewrite !length_append. cbn [String.length]. lia.
  - rewrite need_obj. destruct ms as [|[k x] r]; [cbn; lia|].
    inversion IH as [|? ? Hx Hr]; subst. cbn [snd] in Hx.
    pose proof (need_members_length r Hr).
    rewrite stringify_obj_cons. cbn [need_members fold_right snd].
    fold (need_members r). cbn [String.length].
    rewrite !length_append. cbn [String.length].
    rewrite !length_append. cbn [String.length]. lia.
Qed.

Lemma JSON_parse_stringify (v : json) :
  well_formed v = true -> JSON_parse (stringify v) = Some v.
Proof.
  intros W. unfold JSON_parse.
  pose proof (need_length v) as Hn.
  remember (2 * String.length (stringify v) + 2) as fuel eqn:Ef.
  pose proof (reads_back_all v fuel "") as H.
  rewrite append_nil_r in H. rewrite H; [reflexivity | lia | exact I | exact W].
Qed.

(** ** What [JSON.parse] returns is well formed *)









(** ** The fuel of [JSON_parse] is never what stops it *)

Lemma skip_ws_length (s : string) :
  String.length (skip_ws s) <= String.length s.
Proof.
  induction s as [|c r IH]; cbn [skip_ws]; [lia|].
  destruct (is_ws c); cbn [String.length] in *; lia.
Qed.

Lemma skip_ws_cons (s : string) (c : ascii) (r : string) :
  skip_ws s = String c r -> String.length r < String.length s.
Proof.
  intros H. pose proof (skip_ws_length s) as L. rewrite H in L.
  cbn [String.length] in L. lia.
Qed.

Lemma parse_chars_length (s x t : string) :
  parse_chars s = Some (x, t) -> String.length t < String.length s.
Proof.
  revert x t. induction s as [s IH] using (well_founded_induction
    (Wf_nat.well_founded_ltof _ String.length)).
  unfold Wf_nat.ltof in IH. intros x t.
  destruct s as [|c r]; cbn [parse_chars]; [discriminate|].
  destruct (Ascii.eqb c dquote).
  { intros [= _ <-]. cbn [String.length]. lia. }
  destruct (Ascii.eqb c backslash).
  { destruct r as [|e r1]; [discriminate|].
    destruct (unescape e).
    - destruct (parse_chars r1) as [[x' t']|] eqn:E; [|discriminate].
      intros [= _ <-]. apply IH in E; cbn [String.length] in *; lia.
    - destruct (Ascii.eqb e "u"); [|discriminate].
      destruct r1 as [|h1 [|h2 [|h3 [|h4 r2]]]]; try discriminate.
      destruct (hex4 h1 h2 h3 h4); [|discriminate].
      destruct (parse_chars r2) as [[x' t']|] eqn:E; [|discriminate].
      intros [= _ <-]. apply IH in E; cbn [String.length] in *; lia. }
  destruct (N.ltb (N_of_ascii c) 32); [discriminate|].
  destruct (parse_chars r) as [[x' t']|] eqn:E; [|discriminate].
  intros [= _ <-]. apply IH in E; cbn [String.length] in *; lia.
Qed.

Lemma strip_length (p s t : string) :
  strip p s = Some t -> String.length t <= String.length s.
Proof.
  revert s. induction p as [|a p IH]; intros s; cbn [strip].
  - intros [= <-]. lia.
  - destruct s as [|b s']; [discriminate|].
    destruct (Ascii.eqb a b); [|discriminate].
    intros H. apply IH in H. cbn [String.length]. lia.
Qed.

Lemma scan_digits_length (s : string) :
  String.length (snd (scan_digits s)) <= String.length s.
Proof.
  induction s as [|c r IH]; cbn [scan_digits]; [cbn; lia|].
  destruct (is_digit c); [|cbn; lia].
  destruct (scan_digits r) as [d t]. cbn [snd String.length] in *. lia.
Qed.

Lemma parse_number_length (s : string) (v : json) (t : string) :
  parse_number s = Some (v, t) -> String.length t < String.length s.
Proof.
  unfold parse_number. destruct s as [|c r]; [discriminate|].
  destruct (Ascii.eqb c minus).
  - destruct r as [|c' r']; [discriminate|].
    destruct (Ascii.eqb c' "0").
    { intros [= _ <-]. cbn [String.length]. lia. }
    destruct (is_digit c') eqn:Ed; [|discriminate].
    pose proof (scan_digits_length r') as L.
    cbn [scan_digits]. rewrite Ed.
    destruct (scan_digits r') as [d u]. intros [= _ <-].
    cbn [snd String.length] in *. lia.
  - destruct (Ascii.eqb c "0").
    { intros [= _ <-]. cbn [String.length]. lia. }
    destruct (is_digit c) eqn:Ed; [|discriminate].
    pose proof (scan_digits_length r) as L.
    cbn [scan_digits]. rewrite Ed.
    destruct (scan_digits r) as [d u]. intros [= _ <-].
    cbn [snd String.length] in *. lia.
Qed.

(** Whatever is parsed takes at least one character. *)
Lemma parse_progress (f : nat) :
  (forall s v t,
      parse_value f s = Some (v, t) -> String.length t < String.length s) /\
  (forall s vs t,
      parse_elements f s = Some (vs, t) ->
      String.length t < String.length s) /\
  (forall s ms t,
      parse_members f s = Some (ms, t) ->
      String.length t < String.length s).
Proof.
  induction f as [|f (IHv & IHe & IHm)].
  - repeat split; intros; discriminate.
  - repeat split.
    + intros s v t. rewrite parse_value_S.
      destruct (skip_ws s) as [|c r] eqn:Es; [discriminate|].
      apply skip_ws_cons in Es.
      destruct (Ascii.eqb c lbrace).
      { destruct (skip_ws r) as [|c' r'] eqn:Er; [discriminate|].
        apply skip_ws_cons in Er.
        destruct (Ascii.eqb c' rbrace); [intros [= _ <-]; lia|].
        destruct (parse_members f r) as [[ms u]|] eqn:E; [|discriminate].
        intros [= _ <-]. apply IHm in E. lia. }
      destruct (Ascii.eqb c lbracket).
      { destruct (skip_ws r) as [|c' r'] eqn:Er; [discriminate|].
        apply skip_ws_cons in Er.
        destruct (Ascii.eqb c' rbracket); [intros [= _ <-]; lia|].
        destruct (parse_elements f r) as [[vs u]|] eqn:E; [|discriminate].
        intros [= _ <-]. apply IHe in E. lia. }
      destruct (Ascii.eqb c dquote).
      { destruct (parse_chars r) as [[x u]|] eqn:E; [|discriminate].
        intros [= _ <-]. apply parse_chars_length in E. lia. }
      destruct (Ascii.eqb c "t").
      { destruct (strip "rue" r) eqn:E; [|discriminate].
        intros [= _ <-]. apply strip_length in E. lia. }
      destruct (Ascii.eqb c "f").
      { destruct (strip "alse" r) eqn:E; [|discriminate].
        intros [= _ <-]. apply strip_length in E. lia. }
      destruct (Ascii.eqb c "n").
      { destruct (strip "ull" r) eqn:E; [|discriminate].
        intros [= _ <-]. apply strip_length in E. lia. }
      intros H. apply parse_number_length in H.
      cbn [String.length] in H. lia.
    + intros s vs t. rewrite parse_elements_S.
      destruct (parse_value f s) as [[v u]|] eqn:Ev; [|discriminate].
      apply IHv in Ev.
      destruct (skip_ws u) as [|c r] eqn:Eu; [discriminate|].
      apply skip_ws_cons in Eu.
      destruct (Ascii.eqb c comma).
      { destruct (parse_elements f r) as [[vs' u']|] eqn:Ee; [|discriminate].
        intros [= _ <-]. apply IHe in Ee. lia. }
      destruct (Ascii.eqb c rbracket); [|discriminate].
      intros [= _ <-]. lia.
    + intros s ms t. rewrite parse_members_S.
      destruct (skip_ws s) as [|c r] eqn:Es; [discriminate|].
      apply skip_ws_cons in Es.
      destruct (Ascii.eqb c dquote); [|discriminate].
      destruct (parse_chars r) as [[k u]|] eqn:Ek; [|discriminate].
      apply parse_chars_length in Ek.
      destruct (skip_ws u) as [|c1 r1] eqn:Eu; [discriminate|].
      apply skip_ws_cons in Eu.
      destruct (Ascii.eqb c1 colon); [|discriminate].
      destruct (parse_value f r1) as [[v u1]|] eqn:Ev; [|discriminate].
      apply IHv in Ev.
      destruct (skip_ws u1) as [|c2 r2] eqn:Eu1; [discriminate|].
      apply skip_ws_cons in Eu1.
      destruct (Ascii.eqb c2 comma).
      { destruct (parse_members f r2) as [[ms' u']|] eqn:Em; [|discriminate].
        intros [= _ <-]. apply IHm in Em. lia. }
      destruct (Ascii.eqb c2 rbrace); [|discriminate].
      intros [= _ <-]. lia.
Qed.

(** Past twice the length of the text, more fuel changes nothing. *)
Lemma parse_fuel_stable (f : nat) :
  (forall s f',
      2 * String.length s + 2 <= f -> f <= f' ->
      parse_value f' s = parse_value f s) /\
  (forall s f',
      2 * String.length s + 3 <= f -> f <= f' ->
      parse_elements f' s = parse_elements f s) /\
  (forall s f',
      2 * String.length s + 3 <= f -> f <= f' ->
      parse_members f' s = parse_members f s).
Proof.
  induction f as [|f (IHv & IHe & IHm)].
  - repeat split; intros; lia.
  - repeat split.
    + intros s [|f'] Hf Hle; [lia|]. rewrite !parse_value_S.
      destruct (skip_ws s) as [|c r] eqn:Es; [reflexivity|].
      apply skip_ws_cons in Es.
      rewrite (IHm r f') by lia. rewrite (IHe r f') by lia. reflexivity.
    + intros s [|f'] Hf Hle; [lia|]. rewrite !parse_elements_S.
      rewrite (IHv s f') by lia.
      destruct (parse_value f s) as [[v u]|] eqn:Ev; [|reflexivity].
      apply (proj1 (parse_progress f)) in Ev.
      destruct (skip_ws u) as [|c r] eqn:Eu; [reflexivity|].
      apply skip_ws_cons in Eu.
      rewrite (IHe r f') by lia. reflexivity.
    + intros s [|f'] Hf Hle; [lia|]. rewrite !parse_members_S.
      destruct (skip_ws s) as [|c r] eqn:Es; [reflexivity|].
      apply skip_ws_cons in Es.
      destruct (Ascii.eqb c dquote); [|reflexivity].
      destruct (parse_chars r) as [[k u]|] eqn:Ek; [|reflexivity].
      apply parse_chars_length in Ek.
      destruct (skip_ws u) as [|c1 r1] eqn:Eu; [reflexivity|].
      apply skip_ws_cons in Eu.
      destruct (Ascii.eqb c1 colon); [|reflexivity].
      rewrite (IHv r1 f') by lia.
      destruct (parse_value f r1) as [[v u1]|] eqn:Ev; [|reflexivity].
      apply (proj1 (parse_progress f)) in Ev.
      destruct (skip_ws u1) as [|c2 r2] eqn:Eu1; [reflexivity|].
      apply skip_ws_cons in Eu1.
      rewrite (IHm r2 f') by lia. reflexivity.
Qed.

Lemma JSON_parse_fuel (text : string) (fuel : nat) :
  2 * String.length text + 2 <= fuel ->
  parse_value fuel text = parse_value (2 * String.length text + 2) text.
Proof.
  intros H. now apply (proj1 (parse_fuel_stable _)).
Qed.

(** ** The match of the brace pattern *)

Lemma occurs_append (c : ascii) (a b : string) :
  occurs c (a ++ b) = occurs c a || occurs c b.
Proof.
  induction a as [|x a IH]; cbn [append occurs]; [reflexivity|].
  now rewrite IH, orb_assoc.
Qed.

Lemma upto_last_rbrace_none (s : string) :
  upto_last_rbrace s = None <-> occurs rbrace s = false.
Proof.
  induction s as [|c r IH]; cbn [upto_last_rbrace occurs]; [tauto|].
  destruct (upto_last_rbrace r) as [m|].
  - split; [discriminate|]. intros H. apply orb_false_iff in H.
    destruct H as [_ H]. apply IH in H. discriminate.
  - rewrite (Ascii.eqb_sym rbrace c).
    destruct (Ascii.eqb c rbrace); cbn [orb].
    + split; discriminate.
    + split; [intros _; now apply IH | reflexivity].
Qed.

Lemma upto_last_rbrace_some (s m : string) :
  upto_last_rbrace s = Some m ->
  exists body post,
    m = body ++ String rbrace "" /\ s = m ++ post /\
    occurs rbrace post = false.
Proof.
  revert m. induction s as [|c r IH]; cbn [upto_last_rbrace]; intros m;
    [discriminate|].
  destruct (upto_last_rbrace r) as [m'|] eqn:E.
  - intros [= <-]. destruct (IH m' eq_refl) as (body & post & -> & Hr & Hp).
    exists (String c body), post. cbn [append]. repeat split; [|exact Hp].
    now rewrite Hr at 1.
  - destruct (Ascii.eqb_spec c rbrace) as [->|]; [|discriminate].
    intros [= <-]. exists "", r. repeat split.
    now apply upto_last_rbrace_none.
Qed.

Lemma match_json_no_rbrace (s : string) :
  occurs rbrace s = false -> match_json s = None.
Proof.
  induction s as [|c r IH]; cbn [occurs match_json]; [reflexivity|].
  intros H. apply orb_false_iff in H. destruct H as [_ H].
  rewrite (proj2 (upto_last_rbrace_none r) H), (IH H).
  now destruct (Ascii.eqb c lbrace).
Qed.

(** ** The order of [created_at] texts *)

Lemma string_compare_trans (a b c : string) :
  String.compare a b <> Gt -> String.compare b c <> Gt ->
  String.compare a c <> Gt.
Proof.
  revert b c. induction a as [|x a IH]; intros [|y b] [|z c];
    cbn [String.compare]; try congruence.
  unfold Ascii.compare.
  destruct (N.compare_spec (N_of_ascii x) (N_of_ascii y)) as [Exy|Lxy|Gxy];
    destruct (N.compare_spec (N_of_ascii y) (N_of_ascii z)) as [Eyz|Lyz|Gyz];
    destruct (N.compare_spec (N_of_ascii x) (N_of_ascii z)) as [Exz|Lxz|Gxz];
    try congruence; try lia.
  apply IH.
Qed.

Lemma leb_trans (a b c : string) :
  String.leb a b = true -> String.leb b c = true -> String.leb a c = true.
Proof.
  unfold String.leb. intros H1 H2.
  pose proof (string_compare_trans a b c) as H.
  destruct (String.compare a b); destruct (String.compare b c);
    destruct (String.compare a c); try discriminate; try reflexivity;
    exfalso; apply H; congruence.
Qed.

Lemma ltb_leb (a b : string) : String.ltb a b = true -> String.leb a b = true.
Proof.
  unfold String.ltb, String.leb. now destruct (String.compare a b).
Qed.

Lemma not_ltb_leb (a b : string) :
  String.ltb a b = false -> String.leb b a = true.
Proof.
  unfold String.ltb, String.leb. rewrite (String.compare_antisym b a).
  now destruct (String.compare a b).
Qed.

(** ** [analyseFeedback] *)

Lemma after_call_nil (w : World) (p : string) (n : nat) :
  {| DB := DB w; ai_calls := ai_calls w ++ [(p, n)]; console := console w |}
  = after_call w p n [].
Proof. unfold after_call. now rewrite List.app_nil_r. Qed.

Lemma analyseFeedback_run (env : Env) (content : json) (w : World) :
  exists log,
    analyseFeedback env content w =
    (Ok (classify env content),
     after_call w (analysis_prompt content) 150 log).
Proof.
  unfold analyseFeedback, classify, model_json, bind, try_catch,
    analyse_attempt, AI_run, bind.
  destruct (AI env (analysis_prompt content) 150) as [e|response].
  - eexists [_]. reflexivity.
  - destruct (match_json _) as [m|].
    + unfold parse_or_throw. destruct (JSON_parse m) as [parsed|].
      * exists []. unfold ret. now rewrite after_call_nil.
      * eexists [_]. reflexivity.
    + exists []. unfold ret. now rewrite after_call_nil.
Qed.


Lemma js_or_truthy (a : jsval) (b : json) :
  truthy b = true -> truthy (js_or a b) = true.
Proof.
  intros Hb. unfold js_or. destruct a as [j|]; [|exact Hb].
  now destruct (truthy j) eqn:E.
Qed.


Lemma classify_truthy (env : Env) (content : json) :
  truthy (sentiment (classify env content)) = true /\
  truthy (urgency (classify env content)) = true /\
  truthy (themes (classify env content)) = true.
Proof.
  unfold classify. destruct (model_json _ _ _); cbn [sentiment urgency themes];
    repeat split; try reflexivity; now apply js_or_truthy.
Qed.

(** ** [handleAddFeedback] *)





(** ** [ORDER BY created_at DESC] *)

Section OrderByFacts.
Context {A : Type} (key : A -> string).

Lemma insert_desc_length (x : A) (l : list A) :
  List.length (insert_desc key x l) = S (List.length l).
Proof.
  induction l as [|y r IH]; cbn [insert_desc]; [reflexivity|].
  destruct (String.ltb (key x) (key y)); cbn [List.length]; now rewrite ?IH.
Qed.

Lemma order_by_desc_length (rows : list A) :
  List.length (order_by_desc key rows) = List.length rows.
Proof.
  induction rows as [|x r IH]; cbn [order_by_desc fold_right];
    [reflexivity|].
  fold (order_by_desc key r). now rewrite insert_desc_length, IH.
Qed.

Lemma insert_desc_perm (x : A) (l : list A) :
  Permutation (x :: l) (insert_desc key x l).
Proof.
  induction l as [|y r IH]; cbn [insert_desc]; [reflexivity|].
  destruct (String.ltb (key x) (key y)); [|reflexivity].
  rewrite perm_swap. now constructor.
Qed.

Lemma order_by_desc_perm (rows : list A) :
  Permutation rows (order_by_desc key rows).
Proof.
  induction rows as [|x r IH]; cbn [order_by_desc fold_right];
    [constructor|].
  fold (order_by_desc key r).
  rewrite <- insert_desc_perm. now constructor.
Qed.

(** The first row of the result: the rows before it in the table are
    strictly older, the rows after it are not newer. *)
Lemma order_by_desc_head (rows : list A) :
  match order_by_desc key rows with
  | [] => rows = []
  | top :: _ =>
      exists before after,
        rows = (before ++ top :: after)%list /\
        (forall r, In r before -> String.ltb (key r) (key top) = true) /\
        (forall r, In r after -> String.leb (key r) (key top) = true)
  end.
Proof.
  induction rows as [|x rest IH]; cbn [order_by_desc fold_right];
    [reflexivity|].
  fold (order_by_desc key rest).
  destruct (order_by_desc key rest) as [|h tl]; cbn [insert_desc].
  - subst rest. exists [], []. repeat split; intros r [].
  - destruct IH as (b & a & -> & Hb & Ha).
    destruct (String.ltb (key x) (key h)) eqn:E.
    + exists (x :: b), a. repeat split; [|exact Ha].
      intros r [<-|Hr]; [exact E | now apply Hb].
    + apply not_ltb_leb in E.
      exists [], (b ++ h :: a)%list. repeat split; [intros r [] |].
      intros r Hr. apply in_app_or in Hr.
      destruct Hr as [Hr|[<-|Hr]].
      * apply leb_trans with (key h); [|exact E].
        now apply ltb_leb, Hb.
      * exact E.
      * apply leb_trans with (key h); [now apply Ha | exact E].
Qed.

Lemma newest_first_cons (x : A) (l : list A) :
  (forall y, In y l -> String.leb (key y) (key x) = true) ->
  newest_first key l -> newest_first key (x :: l).
Proof.
  intros Hx Hl [|z l1] l2 a y E Hy; cbn [app] in E; injection E as -> ->.
  - now apply Hx.
  - now apply (Hl l1 l2 a y).
Qed.

Lemma newest_first_tail (x : A) (l : list A) :
  newest_first key (x :: l) ->
  (forall y, In y l -> String.leb (key y) (key x) = true) /\ newest_first key l.
Proof.
  intros H. split.
  - intros y Hy. now apply (H [] l x y).
  - intros l1 l2 a y -> Hy. now apply (H (x :: l1) l2 a y).
Qed.

Lemma insert_desc_in (x y : A) (l : list A) :
  In y (insert_desc key x l) -> y = x \/ In y l.
Proof.
  intros H. apply (Permutation_in y (Permutation_sym (insert_desc_perm x l)))
    in H.
  destruct H as [<-|H]; [now left | now right].
Qed.

Lemma insert_desc_newest_first (x : A) (l : list A) :
  newest_first key l -> newest_first key (insert_desc key x l).
Proof.
  induction l as [|h tl IH]; cbn [insert_desc]; intros H.
  - apply newest_first_cons; [intros y [] | exact H].
  - destruct (newest_first_tail h tl H) as [Hh Htl].
    destruct (String.ltb (key x) (key h)) eqn:E.
    + apply newest_first_cons; [|now apply IH].
      intros y Hy. apply insert_desc_in in Hy.
      destruct Hy as [->|Hy]; [now apply ltb_leb | now apply Hh].
    + apply not_ltb_leb in E. apply newest_first_cons; [|exact H].
      intros y [<-|Hy]; [exact E|].
      apply leb_trans with (key h); [now apply Hh | exact E].
Qed.

Lemma order_by_desc_newest_first (rows : list A) :
  newest_first key (order_by_desc key rows).
Proof.
  induction rows as [|x r IH]; cbn [order_by_desc fold_right].
  - intros [|? ?] ? ? ? E; discriminate.
  - now apply insert_desc_newest_first.
Qed.

(** The rows within a [LIMIT] are at least as new as the rows beyond it. *)
Lemma limit_newest (n : nat) (rows : list A) (r r' : A) :
  In r (firstn n (order_by_desc key rows)) ->
  In r' (skipn n (order_by_desc key rows)) ->
  String.leb (key r') (key r) = true.
Proof.
  intros Hr Hr'.
  pose proof (order_by_desc_newest_first rows) as H.
  rewrite <- (firstn_skipn n (order_by_desc key rows)) in H.
  apply in_split in Hr. destruct Hr as (l1 & l2 & E).
  rewrite E in H. rewrite <- List.app_assoc in H. cbn [app] in H.
  apply (H l1 (l2 ++ skipn n (order_by_desc key rows))%list r r' eq_refl).
  apply in_or_app. now right.
Qed.
End OrderByFacts.

(** ** [handleGenerateDigest] *)

Lemma recent_feedback_length (w : World) :
  List.length (recent_feedback w) =
  Nat.min 50 (List.length (feedback (DB w))).
Proof.
  unfold recent_feedback.
  now rewrite List.length_firstn, order_by_desc_length.
Qed.

Lemma recent_feedback_nil (w : World) :
  recent_feedback w = [] <-> feedback (DB w) = [].
Proof.
  pose proof (recent_feedback_length w) as H.
  split; intros E; rewrite E in H; cbn [List.length] in H.
  - destruct (feedback (DB w)); [reflexivity | cbn [List.length] in H; lia].
  - destruct (recent_feedback w); [reflexivity | cbn in H; lia].
Qed.

(** The rows read for a digest are at least as new as the rows left out. *)
Lemma recent_feedback_newest (w : World) (r r' : FeedbackItem.t) :
  In r (recent_feedback w) ->
  In r' (skipn 50 (order_by_desc FeedbackItem.created_at (feedback (DB w)))) ->
  String.leb (FeedbackItem.created_at r') (FeedbackItem.created_at r) = true.
Proof. apply limit_newest. Qed.

Lemma digest_attempt_run (env : Env) (results : list FeedbackItem.t)
    (w : World) :
  exists log,
    try_catch (digest_attempt env results)
      (fun e =>
         console_error ("Digest generation error: " ++ e) ;;; ret None) w =
    (Ok (model_json env (digest_prompt results) 800),
     after_call w (digest_prompt results) 800 log).
Proof.
  unfold model_json, try_catch, digest_attempt, AI_run, bind.
  destruct (AI env (digest_prompt results) 800) as [e|response].
  - eexists [_]. reflexivity.
  - destruct (match_json _) as [m|].
    + unfold parse_or_throw. destruct (JSON_parse m) as [parsed|].
      * exists []. unfold ret. now rewrite after_call_nil.
      * eexists [_]. reflexivity.
    + exists []. unfold ret. now rewrite after_call_nil.
Qed.

Lemma handleGenerateDigest_empty (env : Env)
    (corsHeaders : list (string * string)) (w : World) :
  feedback (DB w) = [] ->
  handleGenerateDigest env corsHeaders w =
  (Ok (json_response 400 corsHeaders
         (JObj [("error", JStr "No feedback to analyse")])), w).
Proof.
  intros H. apply recent_feedback_nil in H.
  unfold handleGenerateDigest. unfold bind at 1.
  unfold select_recent_feedback. cbv beta iota.
  fold (recent_feedback w). now rewrite H.
Qed.

Lemma handleGenerateDigest_step (env : Env)
    (corsHeaders : list (string * string)) (w w1 : World)
    (reply : option json) :
  recent_feedback w <> [] ->
  try_catch (digest_attempt env (recent_feedback w))
    (fun e =>
       console_error ("Digest generation error: " ++ e) ;;; ret None) w =
  (Ok reply, w1) ->
  let data :=
    match reply with
    | Some parsed => parsed
    | None => default_digest
    end in
  let n := List.length (recent_feedback w) in
  handleGenerateDigest env corsHeaders w =
  (insert_digest
     (get "summary" data)
     (option_map JStr (JSON_stringify (get "top_themes" data)))
     (option_map JStr (JSON_stringify (get "urgent_items" data)))
     (option_map JStr (JSON_stringify (get "sentiment_breakdown" data)))
     (Some (JNum (Z.of_nat n))) ;;;
   ret (json_response 200 corsHeaders (generated data n))) w1.
Proof.
  intros Hne Hrun. cbv zeta.
  unfold handleGenerateDigest. unfold bind at 1.
  unfold select_recent_feedback. cbv beta iota.
  fold (recent_feedback w).
  destruct (recent_feedback w) as [|r0 rs] eqn:Er; [contradiction|].
  cbn [List.length Nat.eqb]. unfold bind at 1. rewrite Hrun. reflexivity.
Qed.

Lemma handleGenerateDigest_run (env : Env)
    (corsHeaders : list (string * string)) (w : World) :
  feedback (DB w) <> [] ->
  exists log,
    let results := recent_feedback w in
    let w1 := after_call w (digest_prompt results) 800 log in
    let data := digest_data env w in
    let n := List.length results in
    match digest_columns data with
    | Some cols =>
        handleGenerateDigest env corsHeaders w =
        (Ok (json_response 200 corsHeaders (generated data n)),
         with_db w1 (with_digest (DB w) (new_digest (DB w) cols n)))
    | None => exists e, handleGenerateDigest env corsHeaders w = (Throw e, w1)
    end.
Proof.
  intros Hne.
  assert (Hr : recent_feedback w <> []).
  { intros E. now apply recent_feedback_nil in E. }
  destruct (digest_attempt_run env (recent_feedback w) w) as [log Hrun].
  exists log. cbv zeta.
  rewrite (handleGenerateDigest_step env corsHeaders w _ _ Hr Hrun).
  fold (digest_data env w).
  unfold digest_columns, insert_digest, JSON_stringify, stored.
  destruct (get "summary" (digest_data env w)) as [s|];
    [|eexists; reflexivity].
  destruct (get "top_themes" (digest_data env w)) as [t|];
    [|destruct s; eexists; reflexivity].
  destruct (get "urgent_items" (digest_data env w)) as [u|];
    [|destruct s; eexists; reflexivity].
  destruct (get "sentiment_breakdown" (digest_data env w)) as [b|];
    [|destruct s; eexists; reflexivity].
  destruct s; try reflexivity. eexists; reflexivity.
Qed.


(** Whenever a digest is generated, one row is added and it counts the
    rows that were read: all of them up to fifty. *)
Lemma generate_digest_count (env : Env)
    (corsHeaders : list (string * string)) (w w' : World) (resp : Response) :
  feedback (DB w) <> [] ->
  handleGenerateDigest env corsHeaders w = (Ok resp, w') ->
  exists row,
    digests (DB w') = (digests (DB w) ++ [row])%list /\
    feedback (DB w') = feedback (DB w) /\
    Digest.feedback_count row =
    JNum (Z.of_nat (Nat.min 50 (List.length (feedback (DB w))))).
Proof.
  intros Hne Hrun.
  destruct (handleGenerateDigest_run env corsHeaders w Hne) as [log H].
  cbv zeta in H.
  destruct (digest_columns (digest_data env w)) as [[[[s t] u] b]|].
  - rewrite H in Hrun. injection Hrun as _ <-.
    eexists. split; [reflexivity|]. split; [reflexivity|].
    cbn [new_digest Digest.feedback_count].
    now rewrite recent_feedback_length.
  - destruct H as [e H]. rewrite H in Hrun. discriminate.
Qed.

(** ** Columns written and read back *)

Lemma stringify_nonempty (v : json) : Stringify.stringify v <> "".
Proof.
  destruct (stringify_head v "") as (c & r & E & _).
  rewrite append_nil_r in E. rewrite E. discriminate.
Qed.

Lemma parse_column_stored (v : json) (otherwise : string) (w : World) :
  well_formed v = true -> parse_column (stored v) otherwise w = (Ok v, w).
Proof.
  intros W. unfold parse_column, stored, js_or. cbn [truthy].
  destruct (String.eqb_spec (Stringify.stringify v) "") as [E|_].
  - now apply stringify_nonempty in E.
  - cbn [negb to_string]. unfold parse_or_throw.
    now rewrite JSON_parse_stringify.
Qed.





Lemma digest_response_stored (row : Digest.t) (t u b : json)
    (corsHeaders : list (string * string)) (w : World) :
  well_formed t = true -> well_formed u = true -> well_formed b = true ->
  Digest.top_themes row = stored t ->
  Digest.urgent_items row = stored u ->
  Digest.sentiment_breakdown row = stored b ->
  digest_response row corsHeaders w =
  (Ok (json_response 200 corsHeaders (digest_object row t u b)), w).
Proof.
  intros Wt Wu Wb Ht Hu Hb. unfold digest_response, bind.
  rewrite Ht, Hu, Hb.
  now rewrite !parse_column_stored.
Qed.

Lemma handleGetDigest_run (env : Env)
    (corsHeaders : list (string * string)) (w : World) :
  handleGetDigest env corsHeaders w =
  match order_by_desc Digest.created_at (digests (DB w)) with
  | [] =>
      (Ok (json_response 404 corsHeaders
             (JObj [("error",
                     JStr "No digest available. Generate one first.")])), w)
  | row :: _ => digest_response row corsHeaders w
  end.
Proof.
  unfold handleGetDigest, bind, select_latest_digest.
  now destruct (order_by_desc Digest.created_at (digests (DB w))).
Qed.


(** ** The handlers on concrete inputs *)

Example parse_nested :
  JSON_parse (bq " { `a` : [ -12 , `x\n` , null , [] , {} ] , `b` : true } ")
  = Some (JObj [("a", JArr [JNum (-12);
                             JStr (String "x" (String newline ""));
                             JNull; JArr []; JObj []]);
                ("b", JBool true)]).
Proof. vm_compute. reflexivity. Qed.

Example parse_repeated_key :
  JSON_parse (bq "{`a`:1,`b`:2,`a`:3}") =
  Some (JObj [("a", JNum 3); ("b", JNum 2)]).
Proof. vm_compute. reflexivity. Qed.

Example parse_trailing_comma : JSON_parse "[1,]" = None.
Proof. vm_compute. reflexivity. Qed.

Example stringify_escapes :
  Stringify.stringify (JArr [JStr (String dquote (String newline "a"))]) =
  String lbracket
    (String dquote
       (String backslash
          (String dquote
             (String backslash
                (String "n" (String "a" (String dquote "]"))))))).
Proof. vm_compute. reflexivity. Qed.

Example match_inside_prose :
  match_json (bq "Here you go: {`sentiment`:`positive`} Hope it helps!") =
  Some (bq "{`sentiment`:`positive`}").
Proof. vm_compute. reflexivity. Qed.

(** The scenario of a submission classified as negative / medium /
    performance: the answer carries the new id and the analysis. *)
Example submit_slow_deploys :
  let env :=
    Samples.replies
      (bq "{`sentiment`:`negative`,`urgency`:`medium`,`themes`:`performance`}")
  in
  fst (handleAddFeedback Samples.slow_deploys env [] Samples.start) =
  Ok {| status := 200;
        headers := [("Content-Type", "application/json")];
        payload :=
          bq "{`success`:true,`id`:1,`analysis`:{`sentiment`:`negative`,`urgency`:`medium`,`themes`:`performance`}}" |}.
Proof. vm_compute. reflexivity. Qed.

(** ** Feedback submissions *)








(** ** The classifier *)



(** C7, as stated, fails: the reply holds two objects, the first of them
    is JSON, and the match is not that first object but the whole text,
    which is not JSON; the classifier falls back. *)
Lemma match_json_spans_objects :
  let first := bq "{`sentiment`:`positive`,`urgency`:`low`,`themes`:`praise`}" in
  let text := first ++ " " ++ bq "{`sentiment`:`negative`}" in
  JSON_parse first =
  Some (JObj [("sentiment", JStr "positive"); ("urgency", JStr "low");
              ("themes", JStr "praise")]) /\
  match_json text = Some text /\
  match_json text <> Some first /\
  JSON_parse text = None /\
  fst (analyseFeedback (Samples.replies text) (JStr "Thanks") Samples.start)
  = Ok fallback.
Proof.
  cbv zeta. repeat split; try (vm_compute; reflexivity).
  vm_compute. discriminate.
Qed.

(** C7, amended.  The extraction step takes the text from the first
    opening brace through the last closing brace: nothing before the match
    holds an opening brace and nothing after it a closing one, so a reply
    with several objects is matched as one span.  There is no match exactly
    when no opening brace is followed, anywhere later, by a closing one. *)
Theorem match_json_first_to_last (text : string) :
  match match_json text with
  | Some m =>
      exists pre body post,
        text = pre ++ m ++ post /\
        m = String lbrace (body ++ String rbrace "") /\
        occurs lbrace pre = false /\ occurs rbrace post = false
  | None =>
      forall a b c, text <> a ++ String lbrace (b ++ String rbrace c)
  end.
Proof.
  induction text as [|x r IH]; cbn [match_json].
  - intros [|? ?] b c; discriminate.
  - destruct (Ascii.eqb_spec x lbrace) as [->|Hx].
    + destruct (upto_last_rbrace r) as [m|] eqn:E.
      * destruct (upto_last_rbrace_some r m E) as (body & post & -> & Hr & Hp).
        exists "", body, post. cbn [append]. repeat split; [|exact Hp].
        now rewrite Hr at 1.
      * apply upto_last_rbrace_none in E.
        rewrite (match_json_no_rbrace r E).
        intros a b c H.
        assert (Ho : occurs rbrace (String lbrace r) = true).
        { rewrite H, occurs_append. cbn [occurs]. rewrite occurs_append.
          cbn [occurs]. rewrite Ascii.eqb_refl. cbn.
          now rewrite !orb_true_r. }
        cbn [occurs] in Ho. rewrite E in Ho. discriminate.
    + destruct (match_json r) as [m|].
      * destruct IH as (pre & body & post & -> & Hm & Hpre & Hpost).
        exists (String x pre), body, post. cbn [append occurs].
        repeat split; try assumption.
        rewrite Hpre, orb_false_r. rewrite Ascii.eqb_sym.
        now apply Ascii.eqb_neq.
      * intros [|y a] b c; cbn [append]; intros [= E1 E2].
        -- now apply Hx.
        -- now apply (IH a b c).
Qed.

(** ** Digests *)

(** C4.  With no row in the feedback table, generating a digest answers
    400 with an error body and leaves the world as it was: no digest row,
    no model call. *)
Theorem generate_digest_without_feedback (env : Env)
    (corsHeaders : list (string * string)) (w : World) :
  feedback (DB w) = [] ->
  exists resp,
    handleGenerateDigest env corsHeaders w = (Ok resp, w) /\
    status resp = 400 /\
    payload resp =
    Stringify.stringify (JObj [("error", JStr "No feedback to analyse")]).
Proof.
  intros H. eexists. split; [now apply handleGenerateDigest_empty|].
  split; reflexivity.
Qed.

Lemma generate_digest_without_feedback_witness :
  exists resp,
    handleGenerateDigest Samples.unavailable [] Samples.start =
    (Ok resp, Samples.start) /\
    status resp = 400 /\
    payload resp =
    Stringify.stringify (JObj [("error", JStr "No feedback to analyse")]).
Proof.
  apply (generate_digest_without_feedback Samples.unavailable []
           Samples.start).
  reflexivity.
Defined.

(** C5 at an input where the code departs from it: one feedback row is in
    the store, the model's reply is an object whose [summary] is [null],
    and the insert is refused by the column's [NOT NULL]; the handler
    raises and no digest row is stored. *)
Theorem generate_digest_null_summary :
  let env :=
    Samples.replies
      (bq "{`summary`:null,`top_themes`:[],`urgent_items`:[],`sentiment_breakdown`:{}}")
  in
  List.length (feedback (DB Samples.one_row)) = 1 /\
  fst (handleGenerateDigest env [] Samples.one_row) =
  Throw "NOT NULL constraint failed: digests.summary" /\
  digests (DB (snd (handleGenerateDigest env [] Samples.one_row))) = [].
Proof. cbv zeta. repeat split; vm_compute; reflexivity. Qed.



(** C8, as stated, fails: two digests carry the same [created_at]; the
    read answers with the one inserted first (id 1), not with the one
    inserted last (id 2). *)
Lemma latest_digest_tie_keeps_first :
  digests (DB Samples.same_second) =
  [Samples.digest_at 1 "first" Samples.noon;
   Samples.digest_at 2 "second" Samples.noon] /\
  fst (handleGetDigest Samples.unavailable [] Samples.same_second) =
  Ok (json_response 200 []
        (digest_object (Samples.digest_at 1 "first" Samples.noon)
           (JArr []) (JArr []) (JObj []))).
Proof. split; vm_compute; reflexivity. Qed.

(** C8, amended.  With no digest row the read answers 404 with an error
    body.  Otherwise it answers for a row whose [created_at] no other row
    exceeds; the query has no second sort key, and of the rows that share
    the greatest [created_at] the one inserted first is taken: every row
    before it in the table is strictly older. *)
Theorem latest_digest_greatest_created_at (env : Env)
    (corsHeaders : list (string * string)) (w : World) :
  match digests (DB w) with
  | [] =>
      handleGetDigest env corsHeaders w =
      (Ok (json_response 404 corsHeaders
             (JObj [("error",
                     JStr "No digest available. Generate one first.")])), w)
  | _ :: _ =>
      exists before row after,
        digests (DB w) = (before ++ row :: after)%list /\
        (forall r, In r before ->
                   String.ltb (Digest.created_at r) (Digest.created_at row)
                   = true) /\
        (forall r, In r after ->
                   String.leb (Digest.created_at r) (Digest.created_at row)
                   = true) /\
        handleGetDigest env corsHeaders w = digest_response row corsHeaders w
  end.
Proof.
  rewrite handleGetDigest_run.
  pose proof (order_by_desc_head Digest.created_at (digests (DB w))) as H.
  destruct (order_by_desc Digest.created_at (digests (DB w))) as [|top tl].
  - now rewrite H.
  - destruct H as (before & after & E & Hb & Ha).
    destruct (digests (DB w)) as [|d ds] eqn:Ed.
    + now destruct before.
    + exists before, top, after. now repeat split.
Qed.



(** * Proofs on the rest of the worker *)

(** ** Rules for [answers] *)

Lemma answers_ret {A} (P : A -> Prop) (a : A) : P a -> answers P (ret a).
Proof. intros H w. exact H. Qed.

Lemma answers_throw {A} (P : A -> Prop) (e : string) : answers P (throw e).
Proof. intros w. exact I. Qed.

Lemma answers_bind {A B} (P : B -> Prop) (m : M A) (k : A -> M B) :
  (forall a, answers P (k a)) -> answers P (bind m k).
Proof.
  intros Hk w. unfold bind. destruct (m w) as [[a|e] w']; [apply Hk | exact I].
Qed.

Lemma answers_try_catch {A} (P : A -> Prop) (m : M A) (h : string -> M A) :
  answers P m -> (forall e, answers P (h e)) -> answers P (try_catch m h).
Proof.
  intros Hm Hh w. unfold try_catch. specialize (Hm w).
  destruct (m w) as [[a|e] w']; [exact Hm | apply Hh].
Qed.

(** ** Rules for [moves] *)

Section Moves.
Variable R : World -> World -> Prop.
Hypothesis R_refl : forall w, R w w.
Hypothesis R_trans : forall a b c, R a b -> R b c -> R a c.

Lemma moves_ret {A} (a : A) : moves R (ret a).
Proof. intros w. apply R_refl. Qed.

Lemma moves_throw {A} (e : string) : moves R (@throw A e).
Proof. intros w. apply R_refl. Qed.

Lemma moves_pure {A} (m : M A) : (forall w, snd (m w) = w) -> moves R m.
Proof. intros H w. rewrite H. apply R_refl. Qed.

Lemma moves_bind {A B} (m : M A) (k : A -> M B) :
  moves R m -> (forall a, moves R (k a)) -> moves R (bind m k).
Proof.
  intros Hm Hk w. unfold bind. specialize (Hm w).
  destruct (m w) as [[a|e] w']; cbn [snd] in *; [|exact Hm].
  apply R_trans with w'; [exact Hm | apply Hk].
Qed.

(** The continuation may rely on what [m] returns. *)
Lemma moves_bind_with {A B} (P : A -> Prop) (m : M A) (k : A -> M B) :
  moves R m -> answers P m -> (forall a, P a -> moves R (k a)) ->
  moves R (bind m k).
Proof.
  intros Hm Ha Hk w. unfold bind. specialize (Hm w). specialize (Ha w).
  destruct (m w) as [[a|e] w']; cbn [fst snd] in *; [|exact Hm].
  apply R_trans with w'; [exact Hm | now apply Hk].
Qed.

Lemma moves_try_catch {A} (m : M A) (h : string -> M A) :
  moves R m -> (forall e, moves R (h e)) -> moves R (try_catch m h).
Proof.
  intros Hm Hh w. unfold try_catch. specialize (Hm w).
  destruct (m w) as [[a|e] w']; cbn [snd] in *; [exact Hm|].
  apply R_trans with w'; [exact Hm | apply Hh].
Qed.

(** What the handlers are made of. *)
Hypothesis R_call : forall env prompt n, moves R (AI_run env prompt n).
Hypothesis R_log : forall msg, moves R (console_error msg).

Lemma moves_request_json (request : Request) : moves R (request_json request).
Proof.
  unfold request_json. destruct (JSON_parse _);
    [apply moves_ret | apply moves_throw].
Qed.

Lemma moves_prop (k : string) (o : json) : moves R (prop k o).
Proof. destruct o; first [apply moves_throw | apply moves_ret]. Qed.

Lemma moves_bound (v : jsval) : moves R (bound v).
Proof. destruct v; [apply moves_ret | apply moves_throw]. Qed.

Lemma moves_not_null (c : string) (v : json) : moves R (not_null c v).
Proof. destruct v; first [apply moves_throw | apply moves_ret]. Qed.

Lemma moves_parse_or_throw (text : string) : moves R (parse_or_throw text).
Proof.
  unfold parse_or_throw. destruct (JSON_parse _);
    [apply moves_ret | apply moves_throw].
Qed.

Lemma moves_parse_column (c : json) (o : string) : moves R (parse_column c o).
Proof. apply moves_parse_or_throw. Qed.

Lemma moves_analyseFeedback (env : Env) (content : json) :
  moves R (analyseFeedback env content).
Proof.
  unfold analyseFeedback. apply moves_bind.
  - apply moves_try_catch.
    + unfold analyse_attempt. apply moves_bind; [apply R_call|].
      intros r. cbv zeta. destruct (match_json _); [|apply moves_ret].
      apply moves_bind; [apply moves_parse_or_throw|].
      intros p. apply moves_ret.
    + intros e. apply moves_bind; [apply R_log | intros; apply moves_ret].
  - intros [a|]; apply moves_ret.
Qed.

Lemma moves_select_latest_digest : moves R select_latest_digest.
Proof. now apply moves_pure. Qed.

Lemma moves_handleHome (html : string) (env : Env)
    (cors : list (string * string)) : moves R (handleHome html env cors).
Proof. apply moves_ret. Qed.

Lemma moves_handleGetFeedback (env : Env) (cors : list (string * string)) :
  moves R (handleGetFeedback env cors).
Proof.
  unfold handleGetFeedback. apply moves_bind; [now apply moves_pure|].
  intros. apply moves_ret.
Qed.

Lemma moves_digest_response (row : Digest.t) (cors : list (string * string)) :
  moves R (digest_response row cors).
Proof.
  unfold digest_response.
  repeat (apply moves_bind; [apply moves_parse_column | intros ?]).
  apply moves_ret.
Qed.

Lemma moves_handleGetDigest (env : Env) (cors : list (string * string)) :
  moves R (handleGetDigest env cors).
Proof.
  unfold handleGetDigest.
  apply moves_bind; [apply moves_select_latest_digest|].
  intros [row|]; [apply moves_digest_response | apply moves_ret].
Qed.

Lemma moves_map_bullets (name : string) (v : json) :
  moves R (map_bullets name v).
Proof. destruct v; first [apply moves_throw | apply moves_ret]. Qed.

Lemma moves_count_text (k : string) (o : json) : moves R (count_text k o).
Proof.
  unfold count_text. apply moves_bind; [apply moves_prop|].
  intros. apply moves_ret.
Qed.

Lemma moves_slack_message (row : Digest.t) : moves R (slack_message row).
Proof.
  unfold slack_message.
  repeat (apply moves_bind; [apply moves_parse_column | intros ?]).
  repeat (apply moves_bind; [apply moves_count_text | intros ?]).
  repeat (apply moves_bind; [apply moves_map_bullets | intros ?]).
  apply moves_ret.
Qed.

Lemma moves_handleSlackWebhook (env : Env) (cors : list (string * string)) :
  moves R (handleSlackWebhook env cors).
Proof.
  unfold handleSlackWebhook.
  apply moves_bind; [apply moves_select_latest_digest|].
  intros [row|]; [|apply moves_ret].
  apply moves_bind; [apply moves_slack_message | intros; apply moves_ret].
Qed.

Lemma moves_handleInitDb (env : Env) (cors : list (string * string)) :
  moves R (handleInitDb env cors).
Proof.
  unfold handleInitDb, create_table_if_not_exists.
  apply moves_try_catch; [|intros; apply moves_ret].
  repeat (apply moves_bind; [apply moves_ret | intros ?]). apply moves_ret.
Qed.

(** The routes of the [GET] method, and the route of no match. *)
Lemma moves_route_reading (html : string) (items : list Mock.t)
    (request : Request) (env : Env) :
  method request <> "POST" -> moves R (route html items request env).
Proof.
  intros Hm. unfold route, at_route.
  assert (E : String.eqb (method request) "POST" = false)
    by now apply String.eqb_neq.
  rewrite E, !andb_false_r.
  repeat match goal with
         | |- moves R (if ?c then _ else _) => destruct c
         end;
    first [ apply moves_handleHome | apply moves_handleGetFeedback
          | apply moves_handleGetDigest | apply moves_handleSlackWebhook
          | apply moves_ret ].
Qed.

Lemma moves_fetch_of_route (html : string) (items : list Mock.t)
    (request : Request) (env : Env) :
  moves R (route html items request env) ->
  moves R (fetch html items request env).
Proof.
  intros H. unfold fetch.
  destruct (String.eqb (method request) "OPTIONS"); [apply moves_ret|].
  apply moves_try_catch; [exact H|].
  intros e. apply moves_bind; [apply R_log | intros; apply moves_ret].
Qed.

(** The handlers that write.  [Q] is what is known of a feedback row that
    is added: at least that it carries a classification. *)
Variable Q : FeedbackItem.t -> Prop.
Hypothesis Q_classified :
  forall row,
    truthy (FeedbackItem.sentiment row) = true ->
    truthy (FeedbackItem.urgency row) = true ->
    truthy (FeedbackItem.themes row) = true -> Q row.
Hypothesis R_new_feedback :
  forall w row,
    FeedbackItem.id row = S (feedback_seq (DB w)) -> Q row ->
    R w (with_db w (with_feedback (DB w) row)).
Hypothesis R_new_digest :
  forall w row,
    Digest.id row = S (digests_seq (DB w)) ->
    R w (with_db w (with_digest (DB w) row)).

Lemma R_insert_digest (s t u b c : jsval) : moves R (insert_digest s t u b c).
Proof.
  intros w. unfold insert_digest, bind, bound, ret, throw.
  destruct s as [s|]; [|apply R_refl].
  destruct t as [t|]; [|apply R_refl].
  destruct u as [u|]; [|apply R_refl].
  destruct b as [b|]; [|apply R_refl].
  destruct c as [c|]; [|apply R_refl].
  destruct s; cbn [not_null throw ret snd]; try apply R_refl;
    now apply (R_new_digest w (Digest.mk _ _ _ _ _ _ _)).
Qed.

Lemma moves_insert_feedback (source content author s u t : json) :
  truthy s = true -> truthy u = true -> truthy t = true ->
  moves R (insert_feedback (Some source) (Some content) (Some author)
             (Some s) (Some u) (Some t)).
Proof.
  intros Ts Tu Tt w. unfold insert_feedback, bind, bound, ret, throw.
  destruct source; cbn [not_null throw ret snd]; try apply R_refl;
    destruct content; cbn [not_null throw ret snd]; try apply R_refl;
    (apply (R_new_feedback w (FeedbackItem.mk _ _ _ _ _ _ _ _ _));
     [reflexivity | now apply Q_classified]).
Qed.

Lemma moves_insert_feedback_at (source content author s u t : json)
    (created : string) :
  truthy s = true -> truthy u = true -> truthy t = true ->
  moves R (insert_feedback_at (Some source) (Some content) (Some author)
             (Some s) (Some u) (Some t) created).
Proof.
  intros Ts Tu Tt w. unfold insert_feedback_at, bind, bound, ret, throw.
  destruct source; cbn [not_null throw ret snd]; try apply R_refl;
    destruct content; cbn [not_null throw ret snd]; try apply R_refl;
    (apply (R_new_feedback w (FeedbackItem.mk _ _ _ _ _ _ _ _ _));
     [reflexivity | now apply Q_classified]).
Qed.

Lemma answers_analyseFeedback (env : Env) (content : json) :
  answers
    (fun a =>
       truthy (sentiment a) = true /\ truthy (urgency a) = true /\
       truthy (themes a) = true)
    (analyseFeedback env content).
Proof.
  intros w. destruct (analyseFeedback_run env content w) as [log H].
  rewrite H. apply classify_truthy.
Qed.

Lemma R_add (request : Request) (env : Env) (cors : list (string * string)) :
  moves R (handleAddFeedback request env cors).
Proof.
  unfold handleAddFeedback.
  apply moves_bind; [apply moves_request_json | intros b].
  apply moves_bind; [apply moves_prop | intros [source|]];
    cbn [truthy_val negb]; [|apply moves_ret].
  destruct (truthy source); cbn [negb]; [|apply moves_ret].
  apply moves_bind; [apply moves_prop | intros [content|]];
    cbn [truthy_val negb]; [|apply moves_ret].
  destruct (truthy content); cbn [negb]; [|apply moves_ret].
  cbv zeta.
  apply (moves_bind_with _ _ _ (moves_analyseFeedback env _)
           (answers_analyseFeedback env _)).
  intros a (Ts & Tu & Tt).
  apply moves_bind; [apply moves_prop | intros author].
  apply moves_bind; [now apply moves_insert_feedback|].
  intros. apply moves_ret.
Qed.

Lemma moves_seed_loop (env : Env) (items : list Mock.t) (n : nat) :
  moves R (seed_loop env items n).
Proof.
  revert n. induction items as [|item rest IH]; intros n; cbn [seed_loop].
  - apply moves_ret.
  - apply (moves_bind_with _ _ _ (moves_analyseFeedback env _)
             (answers_analyseFeedback env _)).
    intros a (Ts & Tu & Tt).
    apply moves_bind; [now apply moves_insert_feedback_at|].
    intros _. apply IH.
Qed.

Lemma R_seed (items : list Mock.t) (env : Env)
    (cors : list (string * string)) :
  moves R (handleSeedData items env cors).
Proof.
  unfold handleSeedData.
  apply moves_bind; [apply moves_seed_loop | intros; apply moves_ret].
Qed.

Lemma moves_handleGenerateDigest (env : Env) (cors : list (string * string)) :
  moves R (handleGenerateDigest env cors).
Proof.
  unfold handleGenerateDigest.
  apply moves_bind; [now apply moves_pure|]. intros results.
  destruct (Nat.eqb _ _); [apply moves_ret|].
  apply moves_bind.
  - apply moves_try_catch.
    + unfold digest_attempt. apply moves_bind; [apply R_call|].
      intros r. cbv zeta. destruct (match_json _); [|apply moves_ret].
      apply moves_bind; [apply moves_parse_or_throw|].
      intros p. apply moves_ret.
    + intros e. apply moves_bind; [apply R_log | intros; apply moves_ret].
  - intros r. cbv zeta.
    apply moves_bind; [apply R_insert_digest | intros; apply moves_ret].
Qed.

Lemma moves_route (html : string) (items : list Mock.t)
    (request : Request) (env : Env) :
  moves R (route html items request env).
Proof.
  unfold route.
  repeat match goal with
         | |- moves R (if ?c then _ else _) => destruct c
         end;
    first [ apply moves_handleHome | apply moves_handleGetFeedback
          | apply moves_handleGetDigest | apply moves_handleSlackWebhook
          | apply moves_handleGenerateDigest | apply moves_handleInitDb
          | apply R_add | apply R_seed | apply moves_ret ].
Qed.

Lemma moves_fetch (html : string) (items : list Mock.t)
    (request : Request) (env : Env) :
  moves R (fetch html items request env).
Proof. apply moves_fetch_of_route, moves_route. Qed.

End Moves.

(** ** What every request keeps *)

Lemma read_only_refl (w : World) : read_only w w.
Proof. now split. Qed.

Lemma read_only_trans (a b c : World) :
  read_only a b -> read_only b c -> read_only a c.
Proof. intros [H1 H2] [H3 H4]. split; congruence. Qed.

Lemma read_only_log (msg : string) : moves read_only (console_error msg).
Proof. intros w. now split. Qed.

Lemma appends_refl (w : World) : appends w w.
Proof.
  repeat split; try (exists []; now rewrite List.app_nil_r).
Qed.

Lemma appends_trans (a b c : World) : appends a b -> appends b c -> appends a c.
Proof.
  intros ([f1 F1] & [d1 D1] & T1) ([f2 F2] & [d2 D2] & T2).
  repeat split.
  - exists (f1 ++ f2)%list. now rewrite F2, F1, List.app_assoc.
  - exists (d1 ++ d2)%list. now rewrite D2, D1, List.app_assoc.
  - congruence.
Qed.

Lemma appends_same_db (w w' : World) : DB w' = DB w -> appends w w'.
Proof.
  intros E. unfold appends. rewrite E.
  repeat split; exists []; now rewrite List.app_nil_r.
Qed.

Lemma appends_new_feedback (w : World) (row : FeedbackItem.t) :
  appends w (with_db w (with_feedback (DB w) row)).
Proof.
  repeat split; cbn; [now exists [row] | exists []; now rewrite List.app_nil_r].
Qed.

Lemma appends_new_digest (w : World) (row : Digest.t) :
  appends w (with_db w (with_digest (DB w) row)).
Proof.
  repeat split; cbn; [exists []; now rewrite List.app_nil_r | now exists [row]].
Qed.

Lemma keeps_refl (I : D1Database -> Prop) (w : World) : keeps I w w.
Proof. now intros H. Qed.

Lemma keeps_trans (I : D1Database -> Prop) (a b c : World) :
  keeps I a b -> keeps I b c -> keeps I a c.
Proof. unfold keeps. auto. Qed.

Lemma in_map_le {A} (f : A -> nat) (l : list A) (n : nat) :
  (forall r, In r l -> f r <= n) -> ~ In (S n) (map f l).
Proof.
  intros H Hin. apply in_map_iff in Hin. destruct Hin as (r & E & Hr).
  apply H in Hr. lia.
Qed.

Lemma NoDup_snoc {A} (l : list A) (x : A) :
  NoDup l -> ~ In x l -> NoDup (l ++ [x])%list.
Proof.
  induction l as [|y l IH]; cbn [app]; intros Hn Hx.
  - constructor; [intros [] | constructor].
  - inversion Hn as [|? ? Hy Hl]; subst. constructor.
    + intros Hin. apply in_app_or in Hin. destruct Hin as [Hin|[->|[]]].
      * now apply Hy.
      * apply Hx. now left.
    + apply IH; [exact Hl|]. intros Hin. apply Hx. now right.
Qed.

Lemma ids_fresh_new_feedback (w : World) (row : FeedbackItem.t) :
  FeedbackItem.id row = S (feedback_seq (DB w)) ->
  keeps ids_fresh w (with_db w (with_feedback (DB w) row)).
Proof.
  intros Hid (N1 & B1 & N2 & B2). unfold ids_fresh. cbn.
  repeat split; try assumption.
  - rewrite List.map_app. cbn [map]. apply NoDup_snoc; [exact N1|].
    rewrite Hid. now apply in_map_le.
  - intros r Hr. apply in_app_or in Hr. destruct Hr as [Hr|[<-|[]]].
    + apply B1 in Hr. lia.
    + lia.
Qed.

Lemma ids_fresh_new_digest (w : World) (row : Digest.t) :
  Digest.id row = S (digests_seq (DB w)) ->
  keeps ids_fresh w (with_db w (with_digest (DB w) row)).
Proof.
  intros Hid (N1 & B1 & N2 & B2). unfold ids_fresh. cbn.
  repeat split; try assumption.
  - rewrite List.map_app. cbn [map]. apply NoDup_snoc; [exact N2|].
    rewrite Hid. now apply in_map_le.
  - intros r Hr. apply in_app_or in Hr. destruct Hr as [Hr|[<-|[]]].
    + apply B2 in Hr. lia.
    + lia.
Qed.

Lemma keeps_same_db (I : D1Database -> Prop) (w w' : World) :
  DB w' = DB w -> keeps I w w'.
Proof. intros E H. now rewrite E. Qed.

Lemma classified_new_feedback (w : World) (row : FeedbackItem.t) :
  truthy (FeedbackItem.sentiment row) = true /\
  truthy (FeedbackItem.urgency row) = true /\
  truthy (FeedbackItem.themes row) = true ->
  keeps classified w (with_db w (with_feedback (DB w) row)).
Proof.
  intros Hrow H r Hr. cbn in Hr. apply in_app_or in Hr.
  destruct Hr as [Hr|[<-|[]]]; [now apply H | exact Hrow].
Qed.

(** X2.  A request whose method is not [POST] stores nothing and calls no
    model, whatever its path and whatever it is answered: the database and
    the log of model calls are as they were. *)
Theorem fetch_not_post_read_only (html : string) (items : list Mock.t)
    (request : Request) (env : Env) (w : World) :
  method request <> "POST" ->
  DB (snd (fetch html items request env w)) = DB w /\
  ai_calls (snd (fetch html items request env w)) = ai_calls w.
Proof.
  intros Hm.
  apply (moves_fetch_of_route read_only read_only_refl read_only_trans
           read_only_log html items request env).
  now apply moves_route_reading;
    [apply read_only_refl | apply read_only_trans |].
Qed.

Lemma fetch_not_post_read_only_witness :
  let request :=
    {| method := "GET"; pathname := "/api/feedback"; body := "" |} in
  DB (snd (fetch "" [] request Samples.unavailable Samples.one_row)) =
  DB Samples.one_row /\
  ai_calls (snd (fetch "" [] request Samples.unavailable Samples.one_row)) =
  ai_calls Samples.one_row.
Proof.
  apply (fetch_not_post_read_only "" []
           {| method := "GET"; pathname := "/api/feedback"; body := "" |}
           Samples.unavailable Samples.one_row).
  discriminate.
Defined.

(** X3.  No request updates or deletes a row: after any request the rows
    that were in the feedback and digests tables are still there, unchanged
    and in place, with new rows, if any, after them. *)
Theorem fetch_appends (html : string) (items : list Mock.t)
    (request : Request) (env : Env) (w : World) :
  (exists added,
      feedback (DB (snd (fetch html items request env w))) =
      (feedback (DB w) ++ added)%list) /\
  (exists added,
      digests (DB (snd (fetch html items request env w))) =
      (digests (DB w) ++ added)%list) /\
  current_timestamp (DB (snd (fetch html items request env w))) =
  current_timestamp (DB w).
Proof.
  enough (H : moves appends (fetch html items request env)) by exact (H w).
  apply (moves_fetch appends appends_refl appends_trans)
    with (Q := fun _ => True).
  - intros e p n w0. apply appends_same_db. unfold AI_run.
    now destruct (AI e p n).
  - intros msg w0. now apply appends_same_db.
  - now intros row.
  - intros w0 row _ _. apply appends_new_feedback.
  - intros w0 row _. apply appends_new_digest.
Qed.

(** X4.  Ids stay unique: if no id of either table is used twice and none
    is ahead of the table's counter, the same holds after any request. *)
Theorem fetch_keeps_ids (html : string) (items : list Mock.t)
    (request : Request) (env : Env) (w : World) :
  ids_fresh (DB w) ->
  ids_fresh (DB (snd (fetch html items request env w))).
Proof.
  enough (H : moves (keeps ids_fresh) (fetch html items request env))
    by exact (H w).
  apply (moves_fetch (keeps ids_fresh) (keeps_refl _) (keeps_trans _))
    with (Q := fun _ => True).
  - intros e p n w0. apply keeps_same_db. unfold AI_run.
    now destruct (AI e p n).
  - intros msg w0. now apply keeps_same_db.
  - now intros row.
  - intros w0 row Hid _. now apply ids_fresh_new_feedback.
  - intros w0 row Hid. now apply ids_fresh_new_digest.
Qed.

Lemma fetch_keeps_ids_witness :
  ids_fresh
    (DB (snd (fetch "" [] Samples.slow_deploys Samples.unavailable
                Samples.one_row))).
Proof.
  apply (fetch_keeps_ids "" [] Samples.slow_deploys Samples.unavailable
           Samples.one_row).
  unfold ids_fresh. cbn. repeat split.
  - constructor; [intros [] | constructor].
  - intros r [<-|[]]. cbn. lia.
  - constructor.
  - intros r [].
Defined.

(** X5.  Every stored feedback row carries a classification: if the
    sentiment, urgency and themes of every row are truthy (so none is
    [NULL] or empty), the same holds after any request, seeding included
    and whatever the model answers. *)
Theorem fetch_keeps_classified (html : string) (items : list Mock.t)
    (request : Request) (env : Env) (w : World) :
  classified (DB w) ->
  classified (DB (snd (fetch html items request env w))).
Proof.
  enough (H : moves (keeps classified) (fetch html items request env))
    by exact (H w).
  apply (moves_fetch (keeps classified) (keeps_refl _) (keeps_trans _))
    with (Q := fun row =>
                 truthy (FeedbackItem.sentiment row) = true /\
                 truthy (FeedbackItem.urgency row) = true /\
                 truthy (FeedbackItem.themes row) = true).
  - intros e p n w0. apply keeps_same_db. unfold AI_run.
    now destruct (AI e p n).
  - intros msg w0. now apply keeps_same_db.
  - now intros row.
  - intros w0 row _ Hrow. now apply classified_new_feedback.
  - intros w0 row _ H r Hr. now apply H.
Qed.

Lemma fetch_keeps_classified_witness :
  classified
    (DB (snd (fetch "" [] Samples.slow_deploys Samples.unavailable
                Samples.start))).
Proof.
  apply (fetch_keeps_classified "" [] Samples.slow_deploys
           Samples.unavailable Samples.start).
  intros r [].
Defined.

(** ** The answers of the router *)

Lemma framed_json (st : nat) (o : json) :
  In st [200; 400; 404; 500] -> framed (json_response st corsHeaders o).
Proof.
  intros H. split; [exact H|].
  intros h Hh. cbn in *. tauto.
Qed.

Ltac status_ok := cbn; tauto.

Lemma answers_handleAddFeedback (request : Request) (env : Env) :
  answers framed (handleAddFeedback request env corsHeaders).
Proof.
  unfold handleAddFeedback.
  apply answers_bind; intros b. apply answers_bind; intros source.
  destruct (negb _); [apply answers_ret, framed_json; status_ok|].
  apply answers_bind; intros content.
  destruct (negb _); [apply answers_ret, framed_json; status_ok|].
  cbv zeta. apply answers_bind; intros a. apply answers_bind; intros author.
  apply answers_bind; intros id. apply answers_ret, framed_json; status_ok.
Qed.

Lemma answers_handleGetFeedback (env : Env) :
  answers framed (handleGetFeedback env corsHeaders).
Proof.
  unfold handleGetFeedback. apply answers_bind; intros r.
  apply answers_ret, framed_json; status_ok.
Qed.

Lemma answers_handleGetDigest (env : Env) :
  answers framed (handleGetDigest env corsHeaders).
Proof.
  unfold handleGetDigest. apply answers_bind; intros [row|];
    [|apply answers_ret, framed_json; status_ok].
  unfold digest_response. repeat (apply answers_bind; intros ?).
  apply answers_ret, framed_json; status_ok.
Qed.

Lemma answers_handleGenerateDigest (env : Env) :
  answers framed (handleGenerateDigest env corsHeaders).
Proof.
  unfold handleGenerateDigest. apply answers_bind; intros r.
  destruct (Nat.eqb _ _); [apply answers_ret, framed_json; status_ok|].
  apply answers_bind; intros d. cbv zeta. apply answers_bind; intros _.
  apply answers_ret, framed_json; status_ok.
Qed.

Lemma answers_handleSeedData (items : list Mock.t) (env : Env) :
  answers framed (handleSeedData items env corsHeaders).
Proof.
  unfold handleSeedData. apply answers_bind; intros n.
  apply answers_ret, framed_json; status_ok.
Qed.

Lemma answers_handleInitDb (env : Env) :
  answers framed (handleInitDb env corsHeaders).
Proof.
  unfold handleInitDb. apply answers_try_catch.
  - repeat (apply answers_bind; intros ?).
    apply answers_ret, framed_json; status_ok.
  - intros e. apply answers_ret, framed_json; status_ok.
Qed.

Lemma answers_handleSlackWebhook (env : Env) :
  answers framed (handleSlackWebhook env corsHeaders).
Proof.
  unfold handleSlackWebhook. apply answers_bind; intros [row|];
    [|apply answers_ret, framed_json; status_ok].
  apply answers_bind; intros m. apply answers_ret, framed_json; status_ok.
Qed.

Lemma answers_handleHome (html : string) (env : Env) :
  answers framed (handleHome html env corsHeaders).
Proof.
  apply answers_ret. split; [status_ok|].
  intros h Hh. cbn in *. tauto.
Qed.

Lemma answers_route (html : string) (items : list Mock.t)
    (request : Request) (env : Env) :
  answers framed (route html items request env).
Proof.
  unfold route.
  repeat match goal with
         | |- answers _ (if ?c then _ else _) => destruct c
         end;
    first [ apply answers_handleHome | apply answers_handleAddFeedback
          | apply answers_handleGetFeedback | apply answers_handleGetDigest
          | apply answers_handleGenerateDigest
          | apply answers_handleSeedData | apply answers_handleInitDb
          | apply answers_handleSlackWebhook
          | apply answers_ret, framed_json; status_ok ].
Qed.

(** X1.  The router never raises: every request gets a response, an error
    raised by a handler included.  The status is 200, 400, 404 or 500, and
    the three cross-origin headers are among the headers of the
    response. *)
Theorem fetch_always_answers (html : string) (items : list Mock.t)
    (request : Request) (env : Env) (w : World) :
  exists resp w',
    fetch html items request env w = (Ok resp, w') /\
    In (status resp) [200; 400; 404; 500] /\
    incl corsHeaders (headers resp).
Proof.
  unfold fetch.
  destruct (String.eqb (method request) "OPTIONS").
  - eexists _, _. split; [reflexivity|]. split; [status_ok|].
    apply incl_refl.
  - unfold try_catch. pose proof (answers_route html items request env w) as H.
    destruct (route html items request env w) as [[resp|e] w']; cbn [fst] in H.
    + now exists resp, w'.
    + eexists _, _. split; [reflexivity|].
      apply (framed_json 500). status_ok.
Qed.

(** X6.  A request that matches none of the eight pairs of path and method
    (a known path with another method included) and is not a preflight is
    answered 404 with the body [{"error":"Not Found"}]; nothing else
    happens. *)
Theorem fetch_unknown_route (html : string) (items : list Mock.t)
    (request : Request) (env : Env) (w : World) :
  known_route request = false -> method request <> "OPTIONS" ->
  fetch html items request env w =
  (Ok (json_response 404 corsHeaders (JObj [("error", JStr "Not Found")])),
   w).
Proof.
  intros Hk Hm. unfold known_route in Hk.
  repeat (apply orb_false_iff in Hk; destruct Hk as [Hk ?]).
  unfold fetch, route, try_catch.
  apply String.eqb_neq in Hm. rewrite Hm.
  repeat match goal with H : at_route _ _ _ = false |- _ => rewrite H; clear H
         end.
  reflexivity.
Qed.

Lemma fetch_unknown_route_witness :
  let request :=
    {| method := "POST"; pathname := "/api/digest"; body := "" |} in
  fetch "" [] request Samples.unavailable Samples.one_row =
  (Ok (json_response 404 corsHeaders (JObj [("error", JStr "Not Found")])),
   Samples.one_row).
Proof.
  apply (fetch_unknown_route "" []
           {| method := "POST"; pathname := "/api/digest"; body := "" |}
           Samples.unavailable Samples.one_row);
    [reflexivity | discriminate].
Defined.



(** ** Listing the feedback *)

(** X8.  [GET /api/feedback] answers 200 with one object per row of the
    feedback table, all of them (there is no limit), ordered so that no row
    comes before a newer one; the world is as it was. *)
Theorem handleGetFeedback_lists_all (env : Env)
    (corsHeaders : list (string * string)) (w : World) :
  exists rows,
    handleGetFeedback env corsHeaders w =
    (Ok (json_response 200 corsHeaders (JArr (map feedback_object rows))),
     w) /\
    Permutation (feedback (DB w)) rows /\
    newest_first FeedbackItem.created_at rows.
Proof.
  exists (order_by_desc FeedbackItem.created_at (feedback (DB w))).
  split; [reflexivity|]. split.
  - apply order_by_desc_perm.
  - apply order_by_desc_newest_first.
Qed.




(** ** Seeding *)

Lemma seed_loop_run (env : Env) (items : list Mock.t) :
  forall (n : nat) (w : World),
  exists log,
    seed_loop env items n w =
    (Ok (n + List.length items),
     {| DB :=
          {| feedback :=
               (feedback (DB w) ++
                seeded_rows env (feedback_seq (DB w))
                  (current_timestamp (DB w)) items)%list;
             digests := digests (DB w);
             feedback_seq := feedback_seq (DB w) + List.length items;
             digests_seq := digests_seq (DB w);
             current_timestamp := current_timestamp (DB w) |};
        ai_calls := (ai_calls w ++ seed_calls items)%list;
        console := (console w ++ log)%list |}).
Proof.
  induction items as [|item rest IH]; intros n w.
  - exists []. cbn [seed_loop seeded_rows seed_calls map List.length].
    unfold ret. rewrite !List.app_nil_r, !Nat.add_0_r. now destruct w as [[]].
  - cbn [seed_loop].
    destruct (analyseFeedback_run env (JStr (Mock.content item)) w)
      as [log1 Ha].
    unfold bind at 1. rewrite Ha.
    destruct (classify_truthy env (JStr (Mock.content item)))
      as (T1 & T2 & T3).
    unfold bind at 1. unfold insert_feedback_at, bound.
    unfold bind at 1. unfold ret at 1.
    unfold bind at 1. unfold ret at 1.
    unfold bind at 1. unfold ret at 1.
    unfold bind at 1. unfold ret at 1.
    unfold bind at 1. unfold ret at 1.
    unfold bind at 1. unfold ret at 1.
    unfold bind at 1. cbn [not_null]. unfold ret at 1.
    unfold bind at 1. unfold ret at 1.
    cbv beta iota zeta.
    match goal with
    | |- context [seed_loop env rest (S n) ?w2] =>
        destruct (IH (S n) w2) as [log2 H2]; rewrite H2
    end.
    exists (log1 ++ log2)%list.
    cbn [DB with_db after_call feedback digests feedback_seq digests_seq
         current_timestamp ai_calls console seeded_rows seed_calls map
         List.length].
    rewrite <- !List.app_assoc. cbn [app].
    rewrite !Nat.add_succ_r. reflexivity.
Qed.


Example seed_the_bundled_items (iso_ago : N -> string) :
  fst (handleSeedData (mockFeedback iso_ago) Samples.unavailable []
         Samples.start) =
  Ok (json_response 200 []
        (JObj [("success", JBool true);
               ("message",
                JStr "Seeded 12 feedback items with AI analysis")])).
Proof.
  destruct (seed_loop_run Samples.unavailable (mockFeedback iso_ago) 0
              Samples.start) as [log H].
  unfold handleSeedData, bind. now rewrite H.
Qed.

(** ** Generating and reading digests *)

(** X11.  With feedback in the store, generating a digest calls the model
    exactly once, with a budget of 800 tokens and a prompt made of the rows
    read, and never touches the feedback table, whether it ends in a
    response or raises. *)
Theorem handleGenerateDigest_one_call (env : Env)
    (corsHeaders : list (string * string)) (w : World) :
  feedback (DB w) <> [] ->
  let w' := snd (handleGenerateDigest env corsHeaders w) in
  ai_calls w' =
  (ai_calls w ++ [(digest_prompt (recent_feedback w), 800)])%list /\
  feedback (DB w') = feedback (DB w).
Proof.
  intros Hne. cbv zeta.
  destruct (handleGenerateDigest_run env corsHeaders w Hne) as [log H].
  cbv zeta in H.
  destruct (digest_columns (digest_data env w)) as [cols|].
  - rewrite H. now split.
  - destruct H as [e H]. rewrite H. now split.
Qed.

Lemma handleGenerateDigest_one_call_witness :
  let w' := snd (handleGenerateDigest Samples.unavailable [] Samples.one_row)
  in
  ai_calls w' =
  (ai_calls Samples.one_row ++
   [(digest_prompt (recent_feedback Samples.one_row), 800)])%list /\
  feedback (DB w') = feedback (DB Samples.one_row).
Proof.
  apply (handleGenerateDigest_one_call Samples.unavailable []
           Samples.one_row).
  vm_compute. discriminate.
Defined.



(** ** The webhook *)



(** X13.  With no digest in the store the webhook answers 200 with a fixed
    text, where [GET /api/digest] answers 404; neither changes the
    world. *)
Theorem handleSlackWebhook_without_digest (env : Env)
    (corsHeaders : list (string * string)) (w : World) :
  digests (DB w) = [] ->
  handleSlackWebhook env corsHeaders w =
  (Ok (json_response 200 corsHeaders
         (JObj [("text",
                 JStr "No digest available yet. Visit the dashboard to generate one.")])),
   w) /\
  handleGetDigest env corsHeaders w =
  (Ok (json_response 404 corsHeaders
         (JObj [("error", JStr "No digest available. Generate one first.")])),
   w).
Proof.
  intros H. unfold handleSlackWebhook, handleGetDigest, bind,
    select_latest_digest. rewrite H. now split.
Qed.

Lemma handleSlackWebhook_without_digest_witness :
  handleSlackWebhook Samples.unavailable [] Samples.one_row =
  (Ok (json_response 200 []
         (JObj [("text",
                 JStr "No digest available yet. Visit the dashboard to generate one.")])),
   Samples.one_row) /\
  handleGetDigest Samples.unavailable [] Samples.one_row =
  (Ok (json_response 404 []
         (JObj [("error", JStr "No digest available. Generate one first.")])),
   Samples.one_row).
Proof.
  apply (handleSlackWebhook_without_digest Samples.unavailable []
           Samples.one_row).
  reflexivity.
Defined.



(** X15.  Building the webhook's message raises for a digest whose row
    [GET /api/digest] decodes without error: one whose [top_themes] or
    [urgent_items] was written from a value that is not an array, or whose
    [sentiment_breakdown] was written from [null].  Generation stores such
    values as the model gave them. *)
Theorem slack_message_raises (row : Digest.t) (t u b : json)
    (corsHeaders : list (string * string)) (w : World) :
  Digest.top_themes row = stored t ->
  Digest.urgent_items row = stored u ->
  Digest.sentiment_breakdown row = stored b ->
  well_formed t = true -> well_formed u = true -> well_formed b = true ->
  is_array t = false \/ is_array u = false \/ b = JNull ->
  (exists e, slack_message row w = (Throw e, w)) /\
  digest_response row corsHeaders w =
  (Ok (json_response 200 corsHeaders (digest_object row t u b)), w).
Proof.
  intros Ht Hu Hb Wt Wu Wb H.
  split; [|now apply digest_response_stored].
  unfold slack_message. rewrite Ht, Hu, Hb.
  unfold bind. rewrite !parse_column_stored by assumption.
  unfold count_text, bind, prop, ret.
  destruct b; try (eexists; reflexivity);
    destruct t; try (eexists; reflexivity);
    destruct u; try (eexists; reflexivity);
    exfalso; destruct H as [H|[H|H]]; discriminate.
Qed.

Lemma slack_message_raises_witness :
  let row :=
    Digest.mk 1 (JStr "All quiet") (stored (JStr "billing"))
      (stored (JArr [])) (stored (JObj [])) (JNum 3) Samples.noon in
  (exists e, slack_message row Samples.start = (Throw e, Samples.start)) /\
  digest_response row [] Samples.start =
  (Ok (json_response 200 []
         (digest_object row (JStr "billing") (JArr []) (JObj []))),
   Samples.start).
Proof.
  cbv zeta.
  apply (slack_message_raises
           (Digest.mk 1 (JStr "All quiet") (stored (JStr "billing"))
              (stored (JArr [])) (stored (JObj [])) (JNum 3) Samples.noon)
           (JStr "billing") (JArr []) (JObj []) [] Samples.start);
    try reflexivity.
  left. reflexivity.
Defined.

(** ** More on submissions *)



(** ** More on generation *)

(** X17.  The rows a digest is generated from are the rows the query
    returns: all of them when there are at most fifty, fifty otherwise, and
    then none of the rows left out is newer than a row that was read. *)
Theorem digest_reads_newest_fifty (w : World) :
  select_recent_feedback w = (Ok (recent_feedback w), w) /\
  List.length (recent_feedback w) =
  Nat.min 50 (List.length (feedback (DB w))) /\
  incl (recent_feedback w) (feedback (DB w)) /\
  forall r r',
    In r (recent_feedback w) ->
    In r'
      (skipn 50 (order_by_desc FeedbackItem.created_at (feedback (DB w)))) ->
    String.leb (FeedbackItem.created_at r') (FeedbackItem.created_at r) = true.
Proof.
  split; [reflexivity|]. split; [apply recent_feedback_length|]. split.
  - intros r Hr. unfold recent_feedback in Hr.
    apply (Permutation_in r
             (Permutation_sym
                (order_by_desc_perm FeedbackItem.created_at
                   (feedback (DB w))))).
    rewrite <- (firstn_skipn 50
                  (order_by_desc FeedbackItem.created_at (feedback (DB w)))).
    apply in_or_app. now left.
  - intros r r'. apply limit_newest.
Qed.


